(** * Keephy Entitlements: a shallow embedding of the service

    The development follows [src/index.js] (request handlers) and the
    Entitlement model that follows it in the same file (schema, instance
    methods, static queries).

    Modelling decisions:
    - a JS [Number] is an integer ([Z]); the nested objects [quotas] and
      [usage] are read by a caller-chosen string key, so they are finite
      maps [gmap string Z]; a key whose value is [undefined] or [null] is a
      key that is not in the map;
    - the collection is a [list Entitlement] in insertion order, and the
      [_id] of a document is its position in that list (documents are never
      deleted);
    - [new Date()] is a clock reading carried by the request context;
    - every handler is a function from the store to the new store and the
      response; [await] only sequences the store accesses of one handler.
      The interleaving of two handlers is modelled separately, in
      [Module Interleaving];
    - the token and role middleware ([verifyToken], [requireSuperAdmin]) run
      before the handlers and are left out: a handler receives the user id
      they extracted. *)

From stdpp Require Import gmap strings list.

Open Scope Z_scope.

(** ** Data model (the three schemas) *)

(** [Mixed] values of the [config] maps. *)
Inductive Mixed : Type :=
  | MNum (n : Z)
  | MBool (b : bool)
  | MStr (s : string).

(** [featureSchema] *)
Record Feature : Type := mkFeature {
  feature_name : string;
  feature_enabled : bool;
  feature_config : gmap string Mixed;
  feature_limits : gmap string Z
}.

(** [moduleSchema] *)
Record Module_ : Type := mkModule {
  module_name : string;
  module_enabled : bool;
  module_features : list Feature;
  module_limits : gmap string Z;
  module_config : gmap string Mixed
}.

(** The [enum] of [moduleSchema.name]. *)
Definition moduleCatalog : list string :=
  ["forms"; "submissions"; "staff"; "discounts"; "notifications";
   "reports"; "analytics"; "translations"; "integrations"; "exports";
   "audit"; "settings"; "billing"; "rbac"; "organizations"; "brands"]%string.

(** The [enum] of [entitlementSchema.tenantType]. *)
Inductive TenantType : Type := organization | business | franchise.

Global Instance TenantType_eq_dec : EqDecision TenantType.
Proof. solve_decision. Defined.

(** The [enum] of [audit.action]. *)
Inductive AuditAction : Type :=
  | created | updated | activated | deactivated | quota_exceeded.

Global Instance AuditAction_eq_dec : EqDecision AuditAction.
Proof. solve_decision. Defined.

(** Request body of [PATCH /entitlements/:id/modules/:moduleName]:
    [{ enabled, features, limits, config }], each possibly undefined. *)
Record ModulePatch : Type := mkModulePatch {
  mp_enabled : option bool;
  mp_features : option (list Feature);
  mp_limits : option (gmap string Z);
  mp_config : option (gmap string Mixed)
}.

(** Request body of [PATCH .../features/:featureName]:
    [{ enabled, config, limits }]. *)
Record FeaturePatch : Type := mkFeaturePatch {
  fp_enabled : option bool;
  fp_config : option (gmap string Mixed);
  fp_limits : option (gmap string Z)
}.

(** An audit entry, the object a handler hands to [addAuditEntry] as
    [changes], and the request body of [POST /entitlements] and
    [PATCH /entitlements/:id].  A body may name any path of the schema,
    [audit] included, hence the recursion.  Paths no handler or method reads
    ([addOns], [effectiveFrom], [metadata.version], [metadata.notes],
    [createdAt]) are left out. *)
Inductive AuditEntry : Type :=
  | mkAuditEntry (action : AuditAction) (performedBy : string)
      (changes : Changes) (reason : string) (performedAt : Z)
with Changes : Type :=
  | ChBody (body : Body)
      (* [req.body] of create and update *)
  | ChModule (moduleName : string) (patch : ModulePatch)
      (* [{ module: moduleName, changes: req.body }] *)
  | ChFeature (moduleName featureName : string) (patch : FeaturePatch)
      (* [{ module, feature, changes: req.body }] *)
  | ChQuotas (patch : gmap string Z)
      (* [{ quotas: req.body }] *)
  | ChUsage (resource : string) (amount : Z)
      (* [{ resource, amount }] *)
with Body : Type :=
  | mkBody (b_tenantId : option string) (b_tenantType : option TenantType)
      (b_planId : option string) (b_modules : option (list Module_))
      (b_quotas : option (gmap string Z)) (b_usage : option (gmap string Z))
      (b_isActive : option bool) (b_effectiveUntil : option (option Z))
      (b_audit : option (list AuditEntry)).

Definition action (a : AuditEntry) : AuditAction :=
  let 'mkAuditEntry x _ _ _ _ := a in x.
Definition performedBy (a : AuditEntry) : string :=
  let 'mkAuditEntry _ x _ _ _ := a in x.
Definition changes (a : AuditEntry) : Changes :=
  let 'mkAuditEntry _ _ x _ _ := a in x.
Definition reason (a : AuditEntry) : string :=
  let 'mkAuditEntry _ _ _ x _ := a in x.
Definition performedAt (a : AuditEntry) : Z :=
  let 'mkAuditEntry _ _ _ _ x := a in x.

Definition b_tenantId (b : Body) := let 'mkBody x _ _ _ _ _ _ _ _ := b in x.
Definition b_tenantType (b : Body) := let 'mkBody _ x _ _ _ _ _ _ _ := b in x.
Definition b_planId (b : Body) := let 'mkBody _ _ x _ _ _ _ _ _ := b in x.
Definition b_modules (b : Body) := let 'mkBody _ _ _ x _ _ _ _ _ := b in x.
Definition b_quotas (b : Body) := let 'mkBody _ _ _ _ x _ _ _ _ := b in x.
Definition b_usage (b : Body) := let 'mkBody _ _ _ _ _ x _ _ _ := b in x.
Definition b_isActive (b : Body) := let 'mkBody _ _ _ _ _ _ x _ _ := b in x.
Definition b_effectiveUntil (b : Body) := let 'mkBody _ _ _ _ _ _ _ x _ := b in x.
Definition b_audit (b : Body) := let 'mkBody _ _ _ _ _ _ _ _ x := b in x.

(** [entitlementSchema] *)
Record Entitlement : Type := mkEntitlement {
  tenantId : string;
  tenantType : TenantType;
  planId : string;
  modules : list Module_;
  quotas : gmap string Z;
  usage : gmap string Z;
  isActive : bool;
  effectiveUntil : option Z;
  createdBy : string;
  lastModifiedBy : option string;
  audit : list AuditEntry;
  updatedAt : Z
}.

(** Field updates ([this.f = v]). *)
Definition set_modules (v : list Module_) (e : Entitlement) : Entitlement :=
  mkEntitlement (tenantId e) (tenantType e) (planId e) v (quotas e) (usage e)
    (isActive e) (effectiveUntil e) (createdBy e) (lastModifiedBy e) (audit e)
    (updatedAt e).
Definition set_quotas (v : gmap string Z) (e : Entitlement) : Entitlement :=
  mkEntitlement (tenantId e) (tenantType e) (planId e) (modules e) v (usage e)
    (isActive e) (effectiveUntil e) (createdBy e) (lastModifiedBy e) (audit e)
    (updatedAt e).
Definition set_usage (v : gmap string Z) (e : Entitlement) : Entitlement :=
  mkEntitlement (tenantId e) (tenantType e) (planId e) (modules e) (quotas e) v
    (isActive e) (effectiveUntil e) (createdBy e) (lastModifiedBy e) (audit e)
    (updatedAt e).
Definition set_audit (v : list AuditEntry) (e : Entitlement) : Entitlement :=
  mkEntitlement (tenantId e) (tenantType e) (planId e) (modules e) (quotas e)
    (usage e) (isActive e) (effectiveUntil e) (createdBy e) (lastModifiedBy e) v
    (updatedAt e).
Definition set_updatedAt (v : Z) (e : Entitlement) : Entitlement :=
  mkEntitlement (tenantId e) (tenantType e) (planId e) (modules e) (quotas e)
    (usage e) (isActive e) (effectiveUntil e) (createdBy e) (lastModifiedBy e)
    (audit e) v.

(** ** Instance methods of the model *)

(** [this.modules.find(m => m.name === moduleName)] *)
Definition findModule (e : Entitlement) (moduleName : string) : option Module_ :=
  find (fun m => bool_decide (module_name m = moduleName)) (modules e).

(** [module.features.find(f => f.name === featureName)] *)
Definition findFeature (m : Module_) (featureName : string) : option Feature :=
  find (fun f => bool_decide (feature_name f = featureName)) (module_features m).

Definition isModuleEnabled (e : Entitlement) (moduleName : string) : bool :=
  match findModule e moduleName with
  | Some m => module_enabled m
  | None => false
  end.

Definition isFeatureEnabled (e : Entitlement) (moduleName featureName : string)
  : bool :=
  match findModule e moduleName with
  | None => false
  | Some m =>
      if negb (module_enabled m) then false
      else match findFeature m featureName with
           | Some f => feature_enabled f
           | None => false
           end
  end.

(** [x || 0] on a number that may be undefined: undefined and [0] both give
    [0]. *)
Definition or_zero (x : option Z) : Z := default 0 x.

Definition checkQuota (e : Entitlement) (resource : string) : bool :=
  let quota := or_zero (quotas e !! resource) in
  let usage_ := or_zero (usage e !! resource) in
  bool_decide (usage_ < quota).

(** [incrementUsage] without its [save()]: the assignment to
    [this.usage[resource]]. *)
Definition incrementUsage_local (resource : string) (amount : Z)
    (e : Entitlement) : Entitlement :=
  set_usage (<[resource := or_zero (usage e !! resource) + amount]> (usage e)) e.

(** [addAuditEntry] without its [save()]: the [push]. *)
Definition addAuditEntry_local (act : AuditAction) (by_ : string)
    (ch : Changes) (rsn : string) (now : Z) (e : Entitlement) : Entitlement :=
  set_audit (audit e ++ [mkAuditEntry act by_ ch rsn now]) e.

(** ** Schema defaults and casting *)

(** The paths of [quotas] and of [usage] in [entitlementSchema]. *)
Definition resourceNames : list string :=
  ["submissions"; "forms"; "staff"; "notifications"; "exports";
   "integrations"]%string.

Definition defaultQuotas : gmap string Z :=
  list_to_map [("submissions", 1000); ("forms", 10); ("staff", 5);
               ("notifications", 100); ("exports", 10);
               ("integrations", 3)]%string.

Definition defaultUsage : gmap string Z :=
  list_to_map [("submissions", 0); ("forms", 0); ("staff", 0);
               ("notifications", 0); ("exports", 0);
               ("integrations", 0)]%string.

(** Strict mode: a key that is not a path of the schema is dropped when a
    nested object is set. *)
Definition castResources (m : gmap string Z) : gmap string Z :=
  filter (fun kv => kv.1 ∈ resourceNames) m.

(** A nested object given by a body: cast, and the paths it leaves
    undefined take their defaults. *)
Definition withDefaults (dflt given : gmap string Z) : gmap string Z :=
  castResources given ∪ dflt.

(** Validators of the schemas: [required] on a string (the empty string
    fails it) and the [enum] of a module name.  The enums of [tenantType]
    and of [action] are types here. *)
Definition validFeature (f : Feature) : bool :=
  bool_decide (feature_name f ≠ ""%string).

Definition validModule (m : Module_) : bool :=
  bool_decide (module_name m ∈ moduleCatalog)
  && forallb validFeature (module_features m).

Definition validModules (o : option (list Module_)) : bool :=
  match o with
  | Some ms => forallb validModule ms
  | None => true
  end.

Definition validPlanId (o : option string) : bool :=
  match o with
  | Some p => bool_decide (p ≠ ""%string)
  | None => true
  end.

(** Validators that run on the paths a body sets. *)
Definition validateBody (b : Body) : bool :=
  validPlanId (b_planId b) && validModules (b_modules b).

(** ** The store and the handler monad *)

Abbreviation Store := (list Entitlement).

Inductive Failure : Type :=
  | NotFound (what : string)
  | ValidationError
  | DuplicateTenant
  | QuotaExceeded (resource : string) (quota usage_ : option Z).

(** What [req.user.userId] and the clock give to one request. *)
Record Req : Type := mkReq { userId : string; now : Z }.

(** A handler threads the store and either answers or fails; a failure
    keeps the writes made before it (there is no transaction). *)
Definition Handler (A : Type) : Type := Store -> Store * (Failure + A).

Definition hret {A} (a : A) : Handler A := fun s => (s, inr a).
Definition hfail {A} (f : Failure) : Handler A := fun s => (s, inl f).
Definition hbind {A B} (m : Handler A) (k : A -> Handler B) : Handler B :=
  fun s =>
    match m s with
    | (s', inr a) => k a s'
    | (s', inl f) => (s', inl f)
    end.

Notation "'do' x <- m ; k" := (hbind m (fun x => k))
  (at level 10, x name, m at level 100, k at level 200).

(** [Entitlement.findById(id)] *)
Definition findById (id : nat) : Handler (option Entitlement) :=
  fun s => (s, inr (s !! id)).

(** The filter [{ tenantId, tenantType }] of the unique index. *)
Definition sameTenant (t : string) (ty : TenantType) (d : Entitlement) : bool :=
  bool_decide (tenantId d = t) && bool_decide (tenantType d = ty).

(** [Entitlement.getByTenant]: [findOne({ tenantId, tenantType, isActive: true })] *)
Definition getByTenant (t : string) (ty : TenantType)
  : Handler (option Entitlement) :=
  fun s => (s, inr (find (fun d => sameTenant t ty d && isActive d) s)).

(** [doc.save()] of a loaded document: the pre-save hook stamps
    [updatedAt], the document is written back under its [_id]. None of the
    handlers below modifies the tenant key of a loaded document, so the
    unique index cannot reject the write. *)
Definition save (id : nat) (now_ : Z) (e : Entitlement) : Handler Entitlement :=
  fun s => let e' := set_updatedAt now_ e in (<[id := e']> s, inr e').

(** [doc.save()] of a new document: the unique index
    [{ tenantId: 1, tenantType: 1 }] rejects a second document of a pair. *)
Definition insertNew (now_ : Z) (e : Entitlement) : Handler (nat * Entitlement) :=
  fun s =>
    if existsb (sameTenant (tenantId e) (tenantType e)) s
    then (s, inl DuplicateTenant)
    else let e' := set_updatedAt now_ e in (s ++ [e'], inr (length s, e')).

(** [entitlement.addAuditEntry(action, performedBy, changes, reason)] *)
Definition addAuditEntry (id : nat) (act : AuditAction) (by_ : string)
    (ch : Changes) (rsn : string) (now_ : Z) (e : Entitlement)
  : Handler Entitlement :=
  save id now_ (addAuditEntry_local act by_ ch rsn now_ e).

(** [entitlement.incrementUsage(resource, amount)] *)
Definition incrementUsage (id : nat) (resource : string) (amount : Z)
    (now_ : Z) (e : Entitlement) : Handler Entitlement :=
  save id now_ (incrementUsage_local resource amount e).

(** ** Handlers *)

(** [new Entitlement({ ...req.body, metadata: { ..., createdBy } })] followed
    by the validation that [save()] runs first: the required paths
    [tenantId], [tenantType], [planId] and [metadata.createdBy]. *)
Definition newEntitlement (b : Body) (by_ : string) : Failure + Entitlement :=
  match b_tenantId b, b_tenantType b, b_planId b with
  | Some t, Some ty, Some p =>
      if validateBody b && bool_decide (by_ ≠ ""%string) then
        inr {| tenantId := t; tenantType := ty; planId := p;
               modules := default [] (b_modules b);
               quotas := withDefaults defaultQuotas (default ∅ (b_quotas b));
               usage := withDefaults defaultUsage (default ∅ (b_usage b));
               isActive := default true (b_isActive b);
               effectiveUntil := default None (b_effectiveUntil b);
               createdBy := by_;
               lastModifiedBy := None;
               audit := default [] (b_audit b);
               updatedAt := 0 |}
      else inl ValidationError
  | _, _, _ => inl ValidationError
  end.

(** [POST /entitlements] *)
Definition createEntitlement (rq : Req) (b : Body) : Handler (nat * Entitlement) :=
  match newEntitlement b (userId rq) with
  | inl f => hfail f
  | inr e =>
      do ie <- insertNew (now rq) e ;
      do e' <- addAuditEntry ie.1 created (userId rq) (ChBody b) "" (now rq) ie.2 ;
      hret (ie.1, e')
  end.

(** The [$set] of [{ ...req.body, 'metadata.lastModifiedBy': userId,
    updatedAt: new Date() }] on one document. *)
Definition applyBody (b : Body) (rq : Req) (e : Entitlement) : Entitlement :=
  {| tenantId := default (tenantId e) (b_tenantId b);
     tenantType := default (tenantType e) (b_tenantType b);
     planId := default (planId e) (b_planId b);
     modules := default (modules e) (b_modules b);
     quotas := from_option (withDefaults defaultQuotas) (quotas e) (b_quotas b);
     usage := from_option (withDefaults defaultUsage) (usage e) (b_usage b);
     isActive := default (isActive e) (b_isActive b);
     effectiveUntil := default (effectiveUntil e) (b_effectiveUntil b);
     createdBy := createdBy e;
     lastModifiedBy := Some (userId rq);
     audit := default (audit e) (b_audit b);
     updatedAt := now rq |}.

(** [Entitlement.findByIdAndUpdate(id, ..., { new: true, runValidators: true })]:
    the validators run first, the update is one write of the store, the
    unique index is checked against the other documents, and the updated
    document is returned. *)
Definition findByIdAndUpdate (id : nat) (b : Body) (rq : Req)
  : Handler (option Entitlement) :=
  fun s =>
    if negb (validateBody b) then (s, inl ValidationError)
    else match s !! id with
         | None => (s, inr None)
         | Some e =>
             let e' := applyBody b rq e in
             if existsb (sameTenant (tenantId e') (tenantType e')) (delete id s)
             then (s, inl DuplicateTenant)
             else (<[id := e']> s, inr (Some e'))
         end.

(** [PATCH /entitlements/:id] *)
Definition updateEntitlement (rq : Req) (id : nat) (b : Body)
  : Handler Entitlement :=
  do o <- findByIdAndUpdate id b rq ;
  match o with
  | None => hfail (NotFound "Entitlement not found")
  | Some e => addAuditEntry id updated (userId rq) (ChBody b) "" (now rq) e
  end.

(** The four conditional assignments of the module handler; [if (features)]
    and the like hold for every array or object, the empty ones included. *)
Definition applyModulePatch (p : ModulePatch) (m : Module_) : Module_ :=
  {| module_name := module_name m;
     module_enabled := default (module_enabled m) (mp_enabled p);
     module_features := default (module_features m) (mp_features p);
     module_limits := default (module_limits m) (mp_limits p);
     module_config := default (module_config m) (mp_config p) |}.

Definition applyFeaturePatch (p : FeaturePatch) (f : Feature) : Feature :=
  {| feature_name := feature_name f;
     feature_enabled := default (feature_enabled f) (fp_enabled p);
     feature_config := default (feature_config f) (fp_config p);
     feature_limits := default (feature_limits f) (fp_limits p) |}.

(** [PATCH /entitlements/:id/modules/:moduleName] *)
Definition setModule (rq : Req) (id : nat) (moduleName : string)
    (p : ModulePatch) : Handler Module_ :=
  do o <- findById id ;
  match o with
  | None => hfail (NotFound "Entitlement not found")
  | Some e =>
      match list_find (fun m => module_name m = moduleName) (modules e) with
      | None => hfail (NotFound "Module not found")
      | Some (moduleIndex, m) =>
          let m' := applyModulePatch p m in
          let e1 := set_modules (<[moduleIndex := m']> (modules e)) e in
          if negb (forallb validFeature (default [] (mp_features p)))
          then hfail ValidationError
          else
            do e2 <- save id (now rq) e1 ;
            do _ <- addAuditEntry id updated (userId rq) (ChModule moduleName p)
                   "" (now rq) e2 ;
            hret m'
      end
  end.

(** [PATCH /entitlements/:id/modules/:moduleName/features/:featureName] *)
Definition setFeature (rq : Req) (id : nat) (moduleName featureName : string)
    (p : FeaturePatch) : Handler Feature :=
  do o <- findById id ;
  match o with
  | None => hfail (NotFound "Entitlement not found")
  | Some e =>
      match list_find (fun m => module_name m = moduleName) (modules e) with
      | None => hfail (NotFound "Module not found")
      | Some (moduleIndex, m) =>
          match list_find (fun f => feature_name f = featureName)
                  (module_features m) with
          | None => hfail (NotFound "Feature not found")
          | Some (featureIndex, f) =>
              let f' := applyFeaturePatch p f in
              let m' :=
                {| module_name := module_name m;
                   module_enabled := module_enabled m;
                   module_features := <[featureIndex := f']> (module_features m);
                   module_limits := module_limits m;
                   module_config := module_config m |} in
              let e1 := set_modules (<[moduleIndex := m']> (modules e)) e in
              do e2 <- save id (now rq) e1 ;
              do _ <- addAuditEntry id updated (userId rq)
                     (ChFeature moduleName featureName p) "" (now rq) e2 ;
              hret f'
          end
      end
  end.

(** [PATCH /entitlements/:id/quotas]:
    [entitlement.quotas = { ...entitlement.quotas, ...req.body }] *)
Definition setQuotas (rq : Req) (id : nat) (p : gmap string Z)
  : Handler (gmap string Z) :=
  do o <- findById id ;
  match o with
  | None => hfail (NotFound "Entitlement not found")
  | Some e =>
      let e1 := set_quotas (castResources (p ∪ quotas e)) e in
      do e2 <- save id (now rq) e1 ;
      do e3 <- addAuditEntry id updated (userId rq) (ChQuotas p) "" (now rq) e2 ;
      hret (quotas e3)
  end.

(** The body of the 200 answer of the usage handler; [remaining] is [None]
    where JavaScript computes [NaN] from an undefined operand. *)
Record UsageResult : Type := mkUsageResult {
  ur_resource : string;
  ur_usage : option Z;
  ur_quota : option Z;
  ur_remaining : option Z
}.

Definition usageResult (resource : string) (e : Entitlement) : UsageResult :=
  {| ur_resource := resource;
     ur_usage := usage e !! resource;
     ur_quota := quotas e !! resource;
     ur_remaining :=
       match quotas e !! resource, usage e !! resource with
       | Some q, Some u => Some (q - u)
       | _, _ => None
       end |}.

(** [POST /entitlements/:id/usage/:resource]; [amount] is [None] when the
    body does not give it ([const { amount = 1 } = req.body]). *)
Definition recordUsage (rq : Req) (id : nat) (resource : string)
    (amount : option Z) : Handler UsageResult :=
  let amount := default 1 amount in
  do o <- findById id ;
  match o with
  | None => hfail (NotFound "Entitlement not found")
  | Some e =>
      if negb (checkQuota e resource) then
        do e' <- addAuditEntry id quota_exceeded (userId rq)
                (ChUsage resource amount) "" (now rq) e ;
        hfail (QuotaExceeded resource (quotas e' !! resource)
                 (usage e' !! resource))
      else
        do e' <- incrementUsage id resource amount (now rq) e ;
        hret (usageResult resource e')
  end.

(** The answers of [POST /check-permission]; the [module], [feature] and
    [action] of the request, which the answer repeats, are left out. *)
Inductive PermissionResult : Type :=
  | NoEntitlement
      (* [{ hasPermission: false, reason: 'No entitlement found for tenant' }] *)
  | Permission (hasPermission isModuleEnabled_ isFeatureEnabled_ : bool)
      (quota usage_ : gmap string Z).

(** [feature ? ... : true]: an omitted feature and the empty string are
    both falsy. *)
Definition truthy (o : option string) : option string :=
  match o with
  | Some s => if bool_decide (s = ""%string) then None else Some s
  | None => None
  end.

(** [POST /check-permission] *)
Definition checkPermission (t : string) (ty : TenantType) (module : string)
    (feature : option string) : Handler PermissionResult :=
  do o <- getByTenant t ty ;
  match o with
  | None => hret NoEntitlement
  | Some e =>
      let isModuleEnabled_ := isModuleEnabled e module in
      let isFeatureEnabled_ :=
        match truthy feature with
        | Some f => isFeatureEnabled e module f
        | None => true
        end in
      hret (Permission (isModuleEnabled_ && isFeatureEnabled_)
              isModuleEnabled_ isFeatureEnabled_ (quotas e) (usage e))
  end.

(** ** Reporting *)

Definition msPerDay : Z := 86400000.

(** [Entitlement.getExpiringSoon(days)].  The method reads the clock twice:
    [now1] builds [futureDate], [now2] is the bound of [$gt].
    [setDate(getDate() + days)] moves the date by whole days (no
    daylight-saving shift is modelled); a null [effectiveUntil] matches
    neither comparison. *)
Definition getExpiringSoon (now1 now2 : Z) (days : Z) (s : Store)
  : list Entitlement :=
  let futureDate := now1 + days * msPerDay in
  List.filter
    (fun e =>
       match effectiveUntil e with
       | Some t => bool_decide (t <= futureDate) && bool_decide (now2 < t)
       | None => false
       end && isActive e) s.

(** ** Sequences of calls through the public interface *)

Inductive Op : Type :=
  | OpCreate (b : Body)
  | OpUpdate (id : nat) (b : Body)
  | OpSetModule (id : nat) (moduleName : string) (p : ModulePatch)
  | OpSetFeature (id : nat) (moduleName featureName : string) (p : FeaturePatch)
  | OpSetQuotas (id : nat) (p : gmap string Z)
  | OpRecordUsage (id : nat) (resource : string) (amount : option Z)
  | OpCheckPermission (t : string) (ty : TenantType) (module : string)
      (feature : option string).

(** The store a handler leaves and the failure it answered with, if any. *)
Definition outcome {A} (r : Store * (Failure + A)) : Store * option Failure :=
  (r.1, match r.2 with inl f => Some f | inr _ => None end).

Definition exec (rq : Req) (op : Op) (s : Store) : Store * option Failure :=
  match op with
  | OpCreate b => outcome (createEntitlement rq b s)
  | OpUpdate id b => outcome (updateEntitlement rq id b s)
  | OpSetModule id mn p => outcome (setModule rq id mn p s)
  | OpSetFeature id mn fn p => outcome (setFeature rq id mn fn p s)
  | OpSetQuotas id p => outcome (setQuotas rq id p s)
  | OpRecordUsage id r a => outcome (recordUsage rq id r a s)
  | OpCheckPermission t ty m f => outcome (checkPermission t ty m f s)
  end.

(** The entitlement a call acts on: the [:id] of its route, or the [_id] a
    create would give to its document. *)
Definition target (op : Op) (s : Store) : option nat :=
  match op with
  | OpCreate _ => Some (length s)
  | OpUpdate id _ | OpSetModule id _ _ | OpSetFeature id _ _ _
  | OpSetQuotas id _ | OpRecordUsage id _ _ => Some id
  | OpCheckPermission _ _ _ _ => None
  end.

(** One executed call: who called, what, on which entitlement, and how it
    ended. *)
Record Event : Type := mkEvent {
  ev_req : Req;
  ev_op : Op;
  ev_target : option nat;
  ev_failure : option Failure
}.

Fixpoint run (calls : list (Req * Op)) (s : Store) : Store * list Event :=
  match calls with
  | [] => (s, [])
  | (rq, op) :: rest =>
      let r := exec rq op s in
      let r' := run rest r.1 in
      (r'.1, mkEvent rq op (target op s) r.2 :: r'.2)
  end.

(** The audit entry that a mutating operation is specified to leave:
    a successful create, update, setModule, setFeature or setQuotas, and a
    recordUsage rejected for quota. *)
Definition expectedEntry (ev : Event) : option AuditEntry :=
  let rq := ev_req ev in
  let entry act ch := Some (mkAuditEntry act (userId rq) ch "" (now rq)) in
  match ev_op ev, ev_failure ev with
  | OpCreate b, None => entry created (ChBody b)
  | OpUpdate _ b, None => entry updated (ChBody b)
  | OpSetModule _ mn p, None => entry updated (ChModule mn p)
  | OpSetFeature _ mn fn p, None => entry updated (ChFeature mn fn p)
  | OpSetQuotas _ p, None => entry updated (ChQuotas p)
  | OpRecordUsage _ r a, Some (QuotaExceeded _ _ _) =>
      entry quota_exceeded (ChUsage r (default 1 a))
  | _, _ => None
  end.

(** The expected entries of the mutating operations on entitlement [id], in
    call order. *)
Definition auditTrail (id : nat) (evs : list Event) : list AuditEntry :=
  omap (fun ev => if bool_decide (ev_target ev = Some id)
                  then expectedEntry ev else None) evs.

(** The audit sequence of entitlement [id] (empty when it does not exist). *)
Definition auditOf (id : nat) (s : Store) : list AuditEntry :=
  from_option audit [] (s !! id).

(** A call whose body does not name the [audit] path. *)
Definition leavesAuditPath (c : Req * Op) : Prop :=
  match c.2 with
  | OpCreate b | OpUpdate _ b => b_audit b = None
  | _ => True
  end.

(** I3 on a store. *)
Definition usageNonneg (s : Store) : Prop :=
  forall e r v, e ∈ s -> usage e !! r = Some v -> 0 <= v.

(** A call that gives no negative number for a usage counter: neither as
    the [amount] of recordUsage nor under the [usage] path of a body. *)
Definition givesNoNegativeUsage (c : Req * Op) : Prop :=
  match c.2 with
  | OpRecordUsage _ _ a => 0 <= default 1 a
  | OpCreate b | OpUpdate _ b =>
      forall u r v, b_usage b = Some u -> u !! r = Some v -> 0 <= v
  | _ => True
  end.

(** I1 on a store. *)
Definition uniqueTenants (s : Store) : Prop :=
  forall i j d1 d2,
    s !! i = Some d1 -> s !! j = Some d2 ->
    tenantId d1 = tenantId d2 -> tenantType d1 = tenantType d2 -> i = j.

(** ** Two usage requests in flight

    A handler runs to its next [await] without interruption, and another
    handler may run between two of them.  The usage handler has two store
    accesses: the read of [findById], and the write of the [save()] that
    [addAuditEntry] or [incrementUsage] issues.  Everything between them
    works on the document object the read returned. *)
Module Interleaving.

Inductive Task : Type :=
  | Start (rq : Req) (id : nat) (resource : string) (amount : option Z)
      (* before [await Entitlement.findById(id)] *)
  | Loaded (rq : Req) (id : nat) (resource : string) (amount : Z)
      (doc : option Entitlement)
      (* [findById] has answered; the handler holds [doc] *)
  | Answered (r : Failure + UsageResult).

(** What [save()] writes for a document whose only modified path is
    [audit] (a push) or [usage.<resource>] (an assignment): that path and
    [updatedAt], on the stored document. *)
Definition writeAuditPush (id : nat) (a : AuditEntry) (now_ : Z) (s : Store)
  : Store :=
  alter (fun d => set_updatedAt now_ (set_audit (audit d ++ [a]) d)) id s.

Definition writeUsagePath (id : nat) (resource : string) (v : Z) (now_ : Z)
    (s : Store) : Store :=
  alter (fun d => set_updatedAt now_ (set_usage (<[resource := v]> (usage d)) d))
    id s.

(** One uninterrupted stretch of the handler. *)
Definition step (t : Task) (s : Store) : Store * Task :=
  match t with
  | Start rq id resource amount =>
      (s, Loaded rq id resource (default 1 amount) (s !! id))
  | Loaded rq id resource amount None =>
      (s, Answered (inl (NotFound "Entitlement not found")))
  | Loaded rq id resource amount (Some e) =>
      if negb (checkQuota e resource) then
        let a := mkAuditEntry quota_exceeded (userId rq)
                   (ChUsage resource amount) "" (now rq) in
        (writeAuditPush id a (now rq) s,
         Answered (inl (QuotaExceeded resource (quotas e !! resource)
                          (usage e !! resource))))
      else
        let e' := incrementUsage_local resource amount e in
        (writeUsagePath id resource
           (or_zero (usage e !! resource) + amount) (now rq) s,
         Answered (inr (usageResult resource e')))
  | Answered r => (s, Answered r)
  end.

(** The handlers in flight and the store they share; a schedule names the
    handler that runs next. *)
Definition System : Type := Store * list Task.

Definition stepTask (i : nat) (sys : System) : System :=
  match sys.2 !! i with
  | Some t => let r := step t sys.1 in (r.1, <[i := r.2]> sys.2)
  | None => sys
  end.

Definition runSchedule (schedule : list nat) (sys : System) : System :=
  foldl (fun sys i => stepTask i sys) sys schedule.

Definition succeeded (t : Task) : bool :=
  match t with Answered (inr _) => true | _ => false end.

Definition quotaExceeded (t : Task) : bool :=
  match t with Answered (inl (QuotaExceeded _ _ _)) => true | _ => false end.

End Interleaving.

(** ** What one call does to the document it acts on

    These three functions state, per operation, what the stored document
    [e] becomes; [exec_effect] below proves the handlers against them. *)

(** The audit sequence a call starts from: a body that names [audit]
    replaces the stored sequence. *)
Definition auditBase (op : Op) (stored : list AuditEntry) : list AuditEntry :=
  match op with
  | OpCreate b | OpUpdate _ b => default stored (b_audit b)
  | _ => stored
  end.

(** The usage counters after a call that ended with [failure]. *)
Definition usageAfter (op : Op) (failure : option Failure)
    (stored : gmap string Z) : gmap string Z :=
  match op, failure with
  | OpCreate b, _ => withDefaults defaultUsage (default ∅ (b_usage b))
  | OpUpdate _ b, _ =>
      from_option (withDefaults defaultUsage) stored (b_usage b)
  | OpRecordUsage _ r a, None =>
      <[r := or_zero (stored !! r) + default 1 a]> stored
  | _, _ => stored
  end.

Definition entries (o : option AuditEntry) : list AuditEntry :=
  from_option (fun a => [a]) [] o.

(** ** The rest of the model and of the routes *)



(** [Entitlement.getByPlan]: [find({ planId, isActive: true })] *)
Definition getByPlan (plan : string) (s : Store) : list Entitlement :=
  List.filter (fun d => bool_decide (planId d = plan) && isActive d) s.

(** [GET /entitlements/:id] *)
Definition getEntitlement (id : nat) : Handler Entitlement :=
  do o <- findById id ;
  match o with
  | None => hfail (NotFound "Entitlement not found")
  | Some e => hret e
  end.

(** [GET /entitlements/tenant/:tenantId/:tenantType] *)
Definition getEntitlementByTenant (t : string) (ty : TenantType)
  : Handler Entitlement :=
  do o <- getByTenant t ty ;
  match o with
  | None => hfail (NotFound "Entitlement not found for tenant")
  | Some e => hret e
  end.




(** ** Middleware *)

(** [String.prototype.split(' ')] *)
Fixpoint split_space (s : string) : list string :=
  match s with
  | EmptyString => [EmptyString]
  | String c rest =>
      if Ascii.eqb c Ascii.Space then EmptyString :: split_space rest
      else match split_space rest with
           | w :: ws => String c w :: ws
           | [] => [String c EmptyString]
           end
  end.

(** [req.headers.authorization?.split(' ')[1]], and [None] where
    [if (!token)] holds: no header, no second part, or an empty one. *)
Definition tokenOf (authorization : option string) : option string :=
  match authorization with
  | None => None
  | Some h => truthy (split_space h !! 1%nat)
  end.

(** The decoded token, as far as the service reads it. *)
Record User : Type := mkUser { user_userId : string; user_role : string }.

(** The answers of the two middleware: 401 'No token provided',
    401 'Invalid token', 403 'Super admin access required'. *)
Inductive Denied : Type := NoTokenProvided | InvalidToken | SuperAdminRequired.

(** The routes that list [requireSuperAdmin] after [verifyToken]. *)
Definition needsSuperAdmin (op : Op) : bool :=
  match op with
  | OpCreate _ | OpUpdate _ _ | OpSetModule _ _ _ | OpSetFeature _ _ _ _
  | OpSetQuotas _ _ => true
  | OpRecordUsage _ _ _ | OpCheckPermission _ _ _ _ => false
  end.

Section Middleware.
(** [jwt.verify(token, secret)] of the jsonwebtoken package: the decoded
    payload, or [None] where it throws. *)
Variable jwtVerify : string -> option User.

Definition verifyToken (authorization : option string) : Denied + User :=
  match tokenOf authorization with
  | None => inl NoTokenProvided
  | Some token =>
      match jwtVerify token with
      | Some decoded => inr decoded
      | None => inl InvalidToken
      end
  end.

Definition requireSuperAdmin (u : User) : option Denied :=
  if bool_decide (user_role u ≠ "super_admin"%string)
  then Some SuperAdminRequired else None.

(** One request through the middleware chain of its route, then the
    handler with [req.user.userId]. *)
Definition serve (authorization : option string) (clock : Z) (op : Op)
    (s : Store) : Store * (Denied + option Failure) :=
  match verifyToken authorization with
  | inl d => (s, inl d)
  | inr u =>
      match (if needsSuperAdmin op then requireSuperAdmin u else None) with
      | Some d => (s, inl d)
      | None =>
          let r := exec {| userId := user_userId u; now := clock |} op s in
          (r.1, inr r.2)
      end
  end.

End Middleware.

(** A string with no space character. *)
Fixpoint noSpace (s : string) : bool :=
  match s with
  | EmptyString => true
  | String c rest => negb (Ascii.eqb c Ascii.Space) && noSpace rest
  end.

(** A sequence of clock readings that never goes back. *)
Fixpoint nondecreasing (l : list Z) : Prop :=
  match l with
  | [] => True
  | x :: rest => Forall (Z.le x) rest /\ nondecreasing rest
  end.

(** ** Concrete data used by the examples *)

Definition alice : Req := {| userId := "u1"; now := 1000 |}.

(** [{ audit: [] }] *)
Definition bodyAuditReset : Body :=
  mkBody None None None None None None None None (Some []).

(** [{ tenantId: "t2", tenantType: "business", planId: "pro",
       usage: { submissions: -1 } }] *)
Definition bodyNegativeUsage : Body :=
  mkBody (Some "t2"%string) (Some business) (Some "pro"%string) None None
    (Some {["submissions"%string := -1]}) None None None.

(** [{ tenantId: "t1", tenantType: "business", planId: "pro" }] *)
Definition bodyT1 : Body :=
  mkBody (Some "t1"%string) (Some business) (Some "pro"%string)
    None None None None None None.

(** An entitlement with [quotas.submissions = q] and
    [usage.submissions = u]. *)
Definition entQU (q u : Z) : Entitlement :=
  {| tenantId := "t1"; tenantType := business; planId := "pro";
     modules := [];
     quotas := <["submissions"%string := q]> defaultQuotas;
     usage := <["submissions"%string := u]> defaultUsage;
     isActive := true; effectiveUntil := None; createdBy := "u1";
     lastModifiedBy := None; audit := []; updatedAt := 0 |}.

(** An entitlement whose [usage.submissions] is negative and whose
    [quotas.submissions] is not set. *)
Definition entNegativeUsage : Entitlement :=
  set_usage {["submissions"%string := -1]} (set_quotas ∅ (entQU 0 0)).

(** An active entitlement of tenant [t] whose [effectiveUntil] is [until]. *)
Definition entUntil (t : string) (until : option Z) : Entitlement :=
  {| tenantId := t; tenantType := business; planId := "pro";
     modules := []; quotas := defaultQuotas; usage := defaultUsage;
     isActive := true; effectiveUntil := until; createdBy := "u1";
     lastModifiedBy := None; audit := []; updatedAt := 0 |}.

(** Quota 10, usage 9, two requests of amount 1 (P3). *)
Definition raceStart : Interleaving.System :=
  ([entQU 10 9],
   [Interleaving.Start alice 0 "submissions" None;
    Interleaving.Start alice 0 "submissions" None]).

(** A create, a module switch, a quota change and a rejected usage on a
    new entitlement leave four entries in that order. *)
Definition ledgerCalls : list (Req * Op) :=
  [(alice, OpCreate
             (mkBody (Some "t1"%string) (Some business) (Some "pro"%string)
                (Some [mkModule "forms" false [] ∅ ∅]) None None None None
                None));
   (alice, OpSetModule 0 "forms"
             (mkModulePatch (Some true) None None None));
   (alice, OpSetQuotas 0 {["submissions"%string := 0]});
   (alice, OpRecordUsage 0 "submissions" None)].

(** [{ forms: 50, seats: 7 }]: one resource of the schema and one key
    outside it. *)
Definition quotaPatch : gmap string Z :=
  {["forms"%string := 50; "seats"%string := 7]}.

(** A token verifier that knows one token, of a user who is no super
    admin. *)
Definition staffUser : User := {| user_userId := "u7"; user_role := "staff" |}.

Definition verifyStaff (token : string) : option User :=
  if bool_decide (token = "tok7"%string) then Some staffUser else None.

(** * Properties *)

(** ** Permission evaluator *)

Section Lookup.
Context {A : Type} (key : A -> string).


Lemma find_key_None (k : string) (l : list A) :
  find (fun y => bool_decide (key y = k)) l = None ->
  forall x, x ∈ l -> key x <> k.
Proof.
  induction l as [|y l IH]; simpl; intros H x Hx.
  - by apply elem_of_nil in Hx.
  - case_bool_decide as Hk; [discriminate|].
    apply elem_of_cons in Hx as [-> | Hx]; [done | by apply IH].
Qed.

End Lookup.




(** ** Quota check *)

Lemma checkQuota_true (e : Entitlement) (resource : string) :
  checkQuota e resource = true <->
  or_zero (usage e !! resource) < or_zero (quotas e !! resource).
Proof. unfold checkQuota. apply bool_decide_eq_true. Qed.

Lemma checkQuota_false (e : Entitlement) (resource : string) :
  checkQuota e resource = false <->
  or_zero (quotas e !! resource) <= or_zero (usage e !! resource).
Proof. unfold checkQuota. rewrite bool_decide_eq_false. lia. Qed.

(** C7, as stated: without a quota entry the check would always be false.
    It is true on [entNegativeUsage]: [-1 < 0]. *)
Lemma checkQuota_no_quota_counterexample :
  ~ (forall e resource, quotas e !! resource = None ->
       checkQuota e resource = false).
Proof.
  intros H. specialize (H entNegativeUsage "submissions"%string eq_refl).
  vm_compute in H. discriminate.
Qed.

(** C7, amended: [checkQuota] is the strict comparison
    [usage[resource] < quotas[resource]] with an absent entry read as zero
    (so equality is exhausted); it is false for a resource with no quota
    entry provided the usage counter of that resource is not negative. *)
Theorem checkQuota_spec (e : Entitlement) (resource : string) :
  (checkQuota e resource = true <->
     or_zero (usage e !! resource) < or_zero (quotas e !! resource))
  /\ (or_zero (usage e !! resource) = or_zero (quotas e !! resource) ->
      checkQuota e resource = false)
  /\ (quotas e !! resource = None -> 0 <= or_zero (usage e !! resource) ->
      checkQuota e resource = false).
Proof.
  split; [apply checkQuota_true|]. split.
  - intros Heq. apply checkQuota_false. lia.
  - intros Hq Hu. apply checkQuota_false. rewrite Hq. simpl. lia.
Qed.

Lemma checkQuota_spec_witness :
  checkQuota (entQU 5 5) "submissions" = false
  /\ checkQuota (entQU 5 5) "unknown" = false.
Proof.
  split.
  - apply (proj1 (proj2 (checkQuota_spec (entQU 5 5) "submissions"))).
    reflexivity.
  - apply (proj2 (proj2 (checkQuota_spec (entQU 5 5) "unknown")));
      [reflexivity | vm_compute; discriminate].
Defined.

(** ** Usage handler, one request at a time *)

(** C4: on an exhausted resource ([usage >= quota], absent entries read as
    zero) [recordUsage] fails with QuotaExceeded carrying the stored quota
    and usage, leaves [usage] and [quotas] of the entitlement as they were,
    appends exactly one audit entry, of action [quota_exceeded] and with the
    attempted resource and amount, and touches no other entitlement. *)
Theorem recordUsage_exhausted (rq : Req) (id : nat) (resource : string)
    (amount : option Z) (s : Store) (e : Entitlement) :
  s !! id = Some e ->
  or_zero (quotas e !! resource) <= or_zero (usage e !! resource) ->
  exists s' e',
    recordUsage rq id resource amount s
    = (s', inl (QuotaExceeded resource (quotas e !! resource)
                  (usage e !! resource)))
    /\ s' !! id = Some e'
    /\ usage e' = usage e /\ quotas e' = quotas e
    /\ audit e'
       = audit e ++ [mkAuditEntry quota_exceeded (userId rq)
                       (ChUsage resource (default 1 amount)) "" (now rq)]
    /\ length s' = length s
    /\ forall j, j <> id -> s' !! j = s !! j.
Proof.
  intros Hid Hex. apply checkQuota_false in Hex.
  unfold recordUsage, hbind, findById, addAuditEntry, save, hfail.
  rewrite Hid, Hex. simpl.
  eexists _, _. split; [reflexivity|].
  split; [apply list_lookup_insert_eq; by eapply lookup_lt_Some|].
  repeat split; try reflexivity.
  - apply length_insert.
  - intros j Hj. by apply list_lookup_insert_ne.
Qed.

(** The scenario of the specification: quota 5, usage 5, amount 1. *)
Lemma recordUsage_exhausted_witness :
  exists s' e',
    recordUsage alice 0 "submissions" (Some 1) [entQU 5 5]
    = (s', inl (QuotaExceeded "submissions" (Some 5) (Some 5)))
    /\ s' !! 0%nat = Some e'
    /\ usage e' = usage (entQU 5 5) /\ quotas e' = quotas (entQU 5 5)
    /\ audit e'
       = [mkAuditEntry quota_exceeded "u1" (ChUsage "submissions" 1) "" 1000]
    /\ length s' = 1%nat
    /\ forall j, j <> 0%nat -> s' !! j = [entQU 5 5] !! j.
Proof.
  apply (recordUsage_exhausted alice 0 "submissions" (Some 1)
           [entQU 5 5] (entQU 5 5)).
  - reflexivity.
  - vm_compute. discriminate.
Defined.

(** What a successful [recordUsage] answers and stores: the counter moves
    by [amount] and [remaining] is [quota - usage] after the move. *)
Lemma recordUsage_success (rq : Req) (id : nat) (resource : string)
    (amount : option Z) (s : Store) (e : Entitlement) (q : Z) :
  s !! id = Some e ->
  quotas e !! resource = Some q ->
  or_zero (usage e !! resource) < q ->
  let u' := or_zero (usage e !! resource) + default 1 amount in
  recordUsage rq id resource amount s
  = (<[id := set_updatedAt (now rq)
               (incrementUsage_local resource (default 1 amount) e)]> s,
     inr {| ur_resource := resource; ur_usage := Some u';
            ur_quota := Some q; ur_remaining := Some (q - u') |}).
Proof.
  intros Hid Hq Hlt.
  assert (checkQuota e resource = true) as Hck.
  { apply checkQuota_true. by rewrite Hq. }
  unfold recordUsage, hbind, findById, incrementUsage, save, hret.
  rewrite Hid, Hck. simpl. unfold usageResult. simpl.
  by rewrite lookup_insert_eq, Hq.
Qed.

(** Within the quota the answer is not negative: the check compares the
    counter before the move, so this needs [amount] to fit in what is left
    (the default amount 1 always does). *)
Lemma recordUsage_remaining_nonneg (rq : Req) (id : nat) (resource : string)
    (amount : option Z) (s : Store) (e : Entitlement) (q : Z) :
  s !! id = Some e ->
  quotas e !! resource = Some q ->
  or_zero (usage e !! resource) < q ->
  default 1 amount <= q - or_zero (usage e !! resource) ->
  exists s' r rem,
    recordUsage rq id resource amount s = (s', inr r)
    /\ ur_remaining r = Some rem /\ 0 <= rem.
Proof.
  intros Hid Hq Hlt Hfit.
  rewrite (recordUsage_success rq id resource amount s e q) by done.
  eexists _, _, _. split; [reflexivity|]. split; [reflexivity|]. lia.
Qed.

(** C2 on the code: with quota 10 and usage 9, [recordUsage] with amount 5
    passes the check ([9 < 10]), succeeds, stores usage 14 and answers
    [remaining = -4]. *)
Theorem recordUsage_overshoot :
  exists s',
    recordUsage alice 0 "submissions" (Some 5) [entQU 10 9]
    = (s', inr {| ur_resource := "submissions"; ur_usage := Some 14;
                  ur_quota := Some 10; ur_remaining := Some (-4) |})
    /\ (usage <$> s' !! 0%nat) ≫= (.!! "submissions"%string) = Some 14.
Proof. eexists. split; vm_compute; reflexivity. Qed.

(** ** Permission check *)

(** C9: [checkPermission] returns the store it was given, so no usage,
    quotas or audit of any entitlement changes, and a repeated call on the
    resulting store gives the same store and the same answer. *)
Theorem checkPermission_readonly (t : string) (ty : TenantType)
    (module : string) (feature : option string) (s : Store) :
  (checkPermission t ty module feature s).1 = s
  /\ checkPermission t ty module feature
       (checkPermission t ty module feature s).1
     = checkPermission t ty module feature s.
Proof.
  assert ((checkPermission t ty module feature s).1 = s) as H.
  { unfold checkPermission, hbind, getByTenant, hret.
    by destruct (find _ s). }
  split; [exact H | by rewrite H].
Qed.

(** The scenario of the specification: module [forms] enabled, feature
    [templates] disabled. *)
Lemma checkPermission_scenario :
  let e := set_modules
             [mkModule "forms" true [mkFeature "templates" false ∅ ∅] ∅ ∅]
             (entQU 10 0) in
  (checkPermission "t1" business "forms" (Some "templates"%string) [e]).2
  = inr (Permission false true false (quotas e) (usage e)).
Proof. reflexivity. Qed.

(** ** Expiring report *)

Lemma getExpiringSoon_elem (now1 now2 days : Z) (s : Store) (e : Entitlement) :
  e ∈ getExpiringSoon now1 now2 days s <->
  e ∈ s /\ isActive e = true /\
  exists t, effectiveUntil e = Some t /\ now2 < t <= now1 + days * msPerDay.
Proof.
  unfold getExpiringSoon. rewrite !list_elem_of_In, filter_In.
  rewrite andb_true_iff. split.
  - intros (Hin & Hu & Ha). split; [done|]. split; [done|].
    destruct (effectiveUntil e) as [t|]; [|discriminate].
    apply andb_true_iff in Hu as [H1 H2].
    apply bool_decide_eq_true in H1, H2. exists t. split; [done | lia].
  - intros (Hin & Ha & t & Ht & H1 & H2). rewrite Ht.
    split; [done|]. split; [|done].
    apply andb_true_iff. split; apply bool_decide_eq_true; lia.
Qed.

(** C10: with one clock reading [now_], [getExpiringSoon days] holds exactly
    the stored entitlements that are active and whose [effectiveUntil] lies
    in [(now_, now_ + days]]; an active entitlement expiring in three days
    is reported for seven days and not for two. *)
Theorem getExpiringSoon_spec (now_ days : Z) (s : Store) :
  (forall e,
     e ∈ getExpiringSoon now_ now_ days s <->
     e ∈ s /\ isActive e = true /\
     exists t, effectiveUntil e = Some t /\ now_ < t <= now_ + days * msPerDay)
  /\ (forall e,
        e ∈ s -> isActive e = true ->
        effectiveUntil e = Some (now_ + 3 * msPerDay) ->
        e ∈ getExpiringSoon now_ now_ 7 s /\ e ∉ getExpiringSoon now_ now_ 2 s).
Proof.
  split; [intros e; apply getExpiringSoon_elem|].
  intros e Hin Ha Hu. rewrite !getExpiringSoon_elem. split.
  - split; [done|]. split; [done|]. eexists. split; [done|].
    unfold msPerDay. lia.
  - intros (_ & _ & t & Ht & H1 & H2). rewrite Hu in Ht.
    injection Ht as <-. unfold msPerDay in *. lia.
Qed.

Lemma getExpiringSoon_spec_witness :
  let e := entUntil "t1" (Some (1000 + 3 * msPerDay)) in
  e ∈ getExpiringSoon 1000 1000 7 [e; entUntil "t2" None]
  /\ e ∉ getExpiringSoon 1000 1000 2 [e; entUntil "t2" None].
Proof.
  intros e.
  apply (proj2 (getExpiringSoon_spec 1000 7 [e; entUntil "t2" None]) e).
  - left.
  - reflexivity.
  - reflexivity.
Defined.

(** ** Usage handler, two requests in flight *)

Lemma list_alter_lookup {A} (f : A -> A) (i : nat) (l : list A) (x : A) :
  l !! i = Some x -> alter f i l = <[i := f x]> l.
Proof.
  revert i. induction l as [|y l IH]; intros [|i]; simpl; try discriminate.
  - by intros [= ->].
  - intros H. f_equal. by apply IH.
Qed.

(** A request that runs its two stretches back to back is the sequential
    handler: the path-wise write of [save()] and the write of the whole
    loaded document coincide when nothing ran in between. *)
Lemma step_step_recordUsage (rq : Req) (id : nat) (resource : string)
    (amount : option Z) (s : Store) :
  let r1 := Interleaving.step (Interleaving.Start rq id resource amount) s in
  Interleaving.step r1.2 r1.1
  = ((recordUsage rq id resource amount s).1,
     Interleaving.Answered (recordUsage rq id resource amount s).2).
Proof.
  simpl. unfold recordUsage, hbind, findById, addAuditEntry, incrementUsage,
    save, hfail, hret.
  destruct (s !! id) as [e|] eqn:Hid; simpl; [|reflexivity].
  destruct (checkQuota e resource); simpl.
  - unfold Interleaving.writeUsagePath.
    by rewrite (list_alter_lookup _ _ _ _ Hid).
  - unfold Interleaving.writeAuditPush.
    by rewrite (list_alter_lookup _ _ _ _ Hid).
Qed.

(** One request after the other: the first succeeds, the second is
    rejected for quota, the counter ends at 10. *)
Lemma sequential_one_succeeds :
  let sys := Interleaving.runSchedule [0; 0; 1; 1]%nat raceStart in
  map Interleaving.succeeded sys.2 = [true; false]
  /\ map Interleaving.quotaExceeded sys.2 = [false; true]
  /\ (usage <$> sys.1 !! 0%nat) ≫= (.!! "submissions"%string) = Some 10.
Proof. vm_compute. done. Qed.

(** C1 on the code: when both requests read before either writes, both
    pass the check on the usage 9 they read, both succeed and both answer
    usage 10 with nothing remaining; no request is rejected, no
    [quota_exceeded] entry is written, and the stored counter is 10 after
    two granted units. *)
Theorem race_both_succeed :
  let sys := Interleaving.runSchedule [0; 1; 0; 1]%nat raceStart in
  let ok := Interleaving.Answered
              (inr {| ur_resource := "submissions"; ur_usage := Some 10;
                      ur_quota := Some 10; ur_remaining := Some 0 |}) in
  sys.2 = [ok; ok]
  /\ map Interleaving.quotaExceeded sys.2 = [false; false]
  /\ (usage <$> sys.1 !! 0%nat) ≫= (.!! "submissions"%string) = Some 10
  /\ (audit <$> sys.1 !! 0%nat) = Some [].
Proof. vm_compute. done. Qed.

(** The same interleaving on any entitlement with room left: both requests
    are granted and the counter moves by one amount only. *)
Lemma race_lost_update (rq1 rq2 : Req) (id : nat) (resource : string)
    (s : Store) (e : Entitlement) (q : Z) :
  s !! id = Some e ->
  quotas e !! resource = Some q ->
  or_zero (usage e !! resource) < q ->
  let sys := Interleaving.runSchedule [0; 1; 0; 1]%nat
               (s, [Interleaving.Start rq1 id resource None;
                    Interleaving.Start rq2 id resource None]) in
  map Interleaving.succeeded sys.2 = [true; true]
  /\ (usage <$> sys.1 !! id) ≫= (.!! resource)
     = Some (or_zero (usage e !! resource) + 1).
Proof.
  intros Hid Hq Hlt.
  assert (checkQuota e resource = true) as Hck.
  { apply checkQuota_true. by rewrite Hq. }
  assert (id < length s)%nat as Hlen by by eapply lookup_lt_Some.
  cbn -[Interleaving.step]. unfold Interleaving.stepTask. simpl.
  rewrite Hid. simpl. rewrite Hck. simpl.
  split; [reflexivity|].
  unfold Interleaving.writeUsagePath.
  rewrite (list_alter_lookup _ id s e Hid).
  rewrite list_lookup_alter_eq, list_lookup_insert_eq by done.
  simpl. by rewrite lookup_insert_eq.
Qed.

(** ** The effect of one call *)

Lemma newEntitlement_inr (b : Body) (by_ : string) (e : Entitlement) :
  newEntitlement b by_ = inr e ->
  b_tenantId b = Some (tenantId e) /\ b_tenantType b = Some (tenantType e)
  /\ usage e = withDefaults defaultUsage (default ∅ (b_usage b))
  /\ audit e = default [] (b_audit b).
Proof.
  unfold newEntitlement.
  destruct (b_tenantId b), (b_tenantType b), (b_planId b); try discriminate.
  destruct (_ && _); [|discriminate]. by intros [= <-].
Qed.

(** Every call either writes nothing (and then owes no audit entry), or is
    a create that appends one document, or rewrites the one document it
    acts on. In the last two cases the tenant key is checked against the
    unique index or unchanged, the usage counters are [usageAfter], and the
    audit sequence is [auditBase] followed by the expected entry. *)
Lemma exec_effect (rq : Req) (op : Op) (s : Store) :
  let r := exec rq op s in
  let ev := mkEvent rq op (target op s) r.2 in
  (r.1 = s /\ expectedEntry ev = None)
  \/ (exists b e',
        op = OpCreate b /\ r.1 = s ++ [e']
        /\ existsb (sameTenant (tenantId e') (tenantType e')) s = false
        /\ usage e' = usageAfter op r.2 ∅
        /\ audit e' = auditBase op [] ++ entries (expectedEntry ev))
  \/ (exists id e e',
        target op s = Some id /\ s !! id = Some e /\ r.1 = <[id := e']> s
        /\ ((tenantId e' = tenantId e /\ tenantType e' = tenantType e)
            \/ existsb (sameTenant (tenantId e') (tenantType e')) (delete id s)
               = false)
        /\ usage e' = usageAfter op r.2 (usage e)
        /\ audit e' = auditBase op (audit e) ++ entries (expectedEntry ev)).
Proof.
  destruct op as [b|id b|id mn p|id mn fn p|id p|id res a|t ty m f]; simpl.
  - (* create *)
    unfold createEntitlement.
    destruct (newEntitlement b (userId rq)) as [f|e] eqn:Hnew;
      [by left|].
    apply newEntitlement_inr in Hnew as (_ & _ & Hu & Ha).
    unfold hbind, insertNew, addAuditEntry, save, hret, hfail.
    destruct (existsb _ s) eqn:Hdup; simpl; [by left|].
    right; left. eexists b, _. split; [done|].
    split.
    { rewrite insert_app_r_alt by done. rewrite Nat.sub_diag. reflexivity. }
    simpl. split; [done|]. split; [done | by rewrite Ha].
  - (* update *)
    unfold updateEntitlement, hbind, findByIdAndUpdate, addAuditEntry, save,
      hfail.
    destruct (validateBody b); simpl; [|by left].
    destruct (s !! id) as [e|] eqn:Hid; simpl; [|by left].
    destruct (existsb _ (delete id s)) eqn:Hdup; simpl; [by left|].
    right; right. eexists id, e, _. split; [done|]. split; [done|].
    split; [by rewrite list_insert_insert_eq|].
    simpl. split; [by right|]. split; [by destruct (b_usage b)|done].
  - (* setModule *)
    unfold setModule, hbind, findById, addAuditEntry, save, hfail, hret.
    destruct (s !! id) as [e|] eqn:Hid; simpl; [|by left].
    destruct (list_find _ (modules e)) as [[i m]|]; simpl; [|by left].
    destruct (forallb _ _); simpl; [|by left].
    right; right. eexists id, e, _. split; [done|]. split; [done|].
    split; [by rewrite list_insert_insert_eq|]. simpl. by repeat split; try left.
  - (* setFeature *)
    unfold setFeature, hbind, findById, addAuditEntry, save, hfail, hret.
    destruct (s !! id) as [e|] eqn:Hid; simpl; [|by left].
    destruct (list_find _ (modules e)) as [[i m]|]; simpl; [|by left].
    destruct (list_find _ (module_features m)) as [[k f]|]; simpl; [|by left].
    right; right. eexists id, e, _. split; [done|]. split; [done|].
    split; [by rewrite list_insert_insert_eq|]. simpl. by repeat split; try left.
  - (* setQuotas *)
    unfold setQuotas, hbind, findById, addAuditEntry, save, hfail, hret.
    destruct (s !! id) as [e|] eqn:Hid; simpl; [|by left].
    right; right. eexists id, e, _. split; [done|]. split; [done|].
    split; [by rewrite list_insert_insert_eq|]. simpl. by repeat split; try left.
  - (* recordUsage *)
    unfold recordUsage, hbind, findById, addAuditEntry, incrementUsage, save,
      hfail, hret.
    destruct (s !! id) as [e|] eqn:Hid; simpl; [|by left].
    destruct (checkQuota e res); simpl.
    + right; right. eexists id, e, _. split; [done|]. split; [done|].
      split; [done|]. simpl. split; [by left|]. split; [done|].
      by rewrite app_nil_r.
    + right; right. eexists id, e, _. split; [done|]. split; [done|].
      split; [done|]. simpl. by repeat split; try left.
  - (* checkPermission *)
    left. split; [|done].
    unfold checkPermission, hbind, getByTenant, hret. by destruct (find _ s).
Qed.

(** ** Audit ledger over sequences of calls *)

Lemma auditBase_leaves (rq : Req) (op : Op) (l : list AuditEntry) :
  leavesAuditPath (rq, op) -> auditBase op l = l.
Proof. destruct op; simpl; try done; by intros ->. Qed.

Lemma exec_audit (rq : Req) (op : Op) (s : Store) (j : nat) :
  leavesAuditPath (rq, op) ->
  let r := exec rq op s in
  auditOf j r.1
  = auditOf j s
    ++ entries (if bool_decide (target op s = Some j)
                then expectedEntry (mkEvent rq op (target op s) r.2)
                else None).
Proof.
  intros Hl. simpl. unfold auditOf.
  destruct (exec_effect rq op s)
    as [[-> Hnone] | [(b & e' & -> & -> & _ & _ & Ha)
                     | (id & e & e' & Ht & Hid & -> & _ & _ & Ha)]].
  - rewrite Hnone. case_bool_decide; simpl; by rewrite app_nil_r.
  - rewrite (auditBase_leaves rq) in Ha by done. simpl in *.
    destruct (decide (j = length s)) as [-> | Hj].
    + rewrite bool_decide_eq_true_2 by done.
      rewrite lookup_app_r, Nat.sub_diag by done. simpl.
      by rewrite lookup_ge_None_2.
    + rewrite bool_decide_eq_false_2 by congruence. simpl.
      rewrite app_nil_r. destruct (decide (j < length s)%nat).
      * by rewrite lookup_app_l.
      * rewrite !lookup_ge_None_2; [done | lia | rewrite length_app; simpl; lia].
  - rewrite (auditBase_leaves rq) in Ha by done. rewrite Ht.
    destruct (decide (j = id)) as [-> | Hj].
    + rewrite bool_decide_eq_true_2 by done.
      rewrite list_lookup_insert_eq by by eapply lookup_lt_Some.
      rewrite Hid. simpl. by rewrite Ha, Ht.
    + rewrite bool_decide_eq_false_2 by congruence. simpl.
      rewrite app_nil_r. by rewrite list_lookup_insert_ne.
Qed.

Lemma auditTrail_cons (j : nat) (ev : Event) (evs : list Event) :
  auditTrail j (ev :: evs)
  = entries (if bool_decide (ev_target ev = Some j)
             then expectedEntry ev else None)
    ++ auditTrail j evs.
Proof.
  unfold auditTrail. simpl.
  case_bool_decide; [by destruct (expectedEntry ev) | done].
Qed.

Lemma run_cons_store (rq : Req) (op : Op) (calls : list (Req * Op)) (s : Store) :
  (run ((rq, op) :: calls) s).1 = (run calls (exec rq op s).1).1.
Proof. reflexivity. Qed.

Lemma run_cons_events (rq : Req) (op : Op) (calls : list (Req * Op)) (s : Store) :
  (run ((rq, op) :: calls) s).2
  = mkEvent rq op (target op s) (exec rq op s).2
    :: (run calls (exec rq op s).1).2.
Proof. reflexivity. Qed.

(** C5, as stated, fails when a body names the [audit] path: the update
    below succeeds after a create, two operations are owed an entry, and
    the audit sequence holds one entry, the [created] entry being gone. *)
Lemma audit_overwritten_counterexample :
  let calls := [(alice, OpCreate bodyT1);
                (alice, OpUpdate 0 bodyAuditReset)] in
  let r := run calls [] in
  map ev_failure r.2 = [None; None]
  /\ length (auditTrail 0 r.2) = 2%nat
  /\ length (auditOf 0 r.1) = 1%nat
  /\ auditOf 0 r.1 <> auditOf 0 [] ++ auditTrail 0 r.2
  /\ map action (auditOf 0 (run [(alice, OpCreate bodyT1)] []).1) = [created]
  /\ map action (auditOf 0 r.1) = [updated].
Proof. vm_compute. repeat split; discriminate. Qed.

(** C5, amended: over any sequence of calls none of whose bodies names the
    [audit] path, the audit sequence of an entitlement is what it was
    before, followed by one entry per mutating operation on it (successful
    create, update, setModule, setFeature, setQuotas; recordUsage rejected
    for quota), in call order; so earlier entries stay in place unchanged
    and exactly N entries are added by N such operations. *)
Theorem audit_append_only (calls : list (Req * Op)) (s : Store) (id : nat) :
  Forall leavesAuditPath calls ->
  auditOf id (run calls s).1 = auditOf id s ++ auditTrail id (run calls s).2
  /\ length (auditOf id (run calls s).1)
     = (length (auditOf id s) + length (auditTrail id (run calls s).2))%nat.
Proof.
  intros Hl.
  assert (auditOf id (run calls s).1
          = auditOf id s ++ auditTrail id (run calls s).2) as H.
  { revert s. induction Hl as [|[rq op] calls Hop _ IH]; intros s.
    - simpl. by rewrite app_nil_r.
    - rewrite run_cons_store, run_cons_events, IH, auditTrail_cons.
      rewrite (exec_audit rq op s id Hop). by rewrite app_assoc. }
  split; [exact H|]. by rewrite H, length_app.
Qed.

Lemma audit_append_only_witness :
  auditOf 0 (run ledgerCalls []).1
  = auditOf 0 [] ++ auditTrail 0 (run ledgerCalls []).2
  /\ length (auditOf 0 (run ledgerCalls []).1)
     = (length (auditOf 0 []) + length (auditTrail 0 (run ledgerCalls []).2))%nat.
Proof.
  apply (audit_append_only ledgerCalls [] 0).
  repeat constructor.
Defined.

Lemma ledgerCalls_trail :
  map action (auditOf 0 (run ledgerCalls []).1)
  = [created; updated; updated; quota_exceeded].
Proof. vm_compute. reflexivity. Qed.

(** ** Usage counters over sequences of calls *)

Lemma defaultUsage_lookup (r : string) (v : Z) :
  defaultUsage !! r = Some v -> v = 0.
Proof.
  intros H. apply elem_of_list_to_map_2 in H.
  repeat (apply elem_of_cons in H as [[= _ <-] | H]; [done|]).
  by apply elem_of_nil in H.
Qed.

Lemma withDefaults_usage_nonneg (given : gmap string Z) (r : string) (v : Z) :
  (forall r' v', given !! r' = Some v' -> 0 <= v') ->
  withDefaults defaultUsage given !! r = Some v -> 0 <= v.
Proof.
  intros Hg. unfold withDefaults, castResources.
  rewrite lookup_union_Some_raw. intros [H | [_ H]].
  - apply map_lookup_filter_Some in H as [H _]. by eapply Hg.
  - apply defaultUsage_lookup in H. lia.
Qed.

Lemma usageAfter_nonneg (rq : Req) (op : Op) (f : option Failure)
    (stored : gmap string Z) :
  givesNoNegativeUsage (rq, op) ->
  (forall r v, stored !! r = Some v -> 0 <= v) ->
  forall r v, usageAfter op f stored !! r = Some v -> 0 <= v.
Proof.
  intros Hop Hs r v. unfold givesNoNegativeUsage in Hop.
  destruct op; simpl in *; try apply Hs.
  - (* create *)
    apply withDefaults_usage_nonneg. intros r' v'.
    destruct (b_usage b) as [u|] eqn:Hu; simpl; [by apply (Hop u)|].
    by rewrite lookup_empty.
  - (* update *)
    destruct (b_usage b) as [u|] eqn:Hu; simpl; [|apply Hs].
    apply withDefaults_usage_nonneg. intros r' v'. by apply (Hop u).
  - (* recordUsage *)
    destruct f; [apply Hs|].
    destruct (decide (resource = r)) as [-> | Hne].
    + rewrite lookup_insert_eq. intros [= <-].
      assert (0 <= or_zero (stored !! r)); [|lia].
      destruct (stored !! r) as [u|] eqn:Hu; simpl; [by eapply Hs | done].
    + rewrite lookup_insert_ne by done. apply Hs.
Qed.

Lemma elem_of_list_insert_inv {A} (l : list A) (i : nat) (x y : A) :
  y ∈ <[i := x]> l -> y = x \/ y ∈ l.
Proof.
  intros H. apply list_elem_of_lookup_1 in H as [j Hj].
  apply list_lookup_insert_Some in Hj as [(_ & -> & _) | [_ Hj]].
  - by left.
  - right. by eapply list_elem_of_lookup_2.
Qed.

Lemma exec_usageNonneg (rq : Req) (op : Op) (s : Store) :
  givesNoNegativeUsage (rq, op) ->
  usageNonneg s -> usageNonneg (exec rq op s).1.
Proof.
  intros Hop Hs.
  destruct (exec_effect rq op s)
    as [[-> _] | [(b & e' & -> & -> & _ & Hu & _)
                 | (id & e & e' & _ & Hid & -> & _ & Hu & _)]]; [done| |].
  - intros d r v [Hd | Hd]%elem_of_app; [by eapply Hs|].
    apply list_elem_of_singleton in Hd as ->. rewrite Hu.
    apply (usageAfter_nonneg rq); [done|]. intros ? ?. by rewrite lookup_empty.
  - intros d r v [-> | Hd]%elem_of_list_insert_inv; [|by eapply Hs].
    rewrite Hu. apply (usageAfter_nonneg rq); [done|].
    intros r' v'. apply Hs. by eapply list_elem_of_lookup_2.
Qed.

(** C6, as stated, fails on a negative amount: on a new entitlement
    (usage 0, quota 1000) [recordUsage] with amount [-5] passes the check
    and stores [usage.submissions = -5]. *)
Lemma usage_negative_counterexample :
  let calls := [(alice, OpCreate bodyT1);
                (alice, OpRecordUsage 0 "submissions" (Some (-5)))] in
  let r := run calls [] in
  usageNonneg [] /\ map ev_failure r.2 = [None; None] /\ ~ usageNonneg r.1.
Proof.
  split; [by intros e r v ?%elem_of_nil|]. split; [by vm_compute|].
  intros H.
  assert (exists e, (run [(alice, OpCreate bodyT1);
                          (alice, OpRecordUsage 0 "submissions" (Some (-5)))]
                       []).1 !! 0%nat = Some e
                    /\ usage e !! "submissions"%string = Some (-5))
    as (e & He & Hu).
  { eexists. split; vm_compute; reflexivity. }
  apply list_elem_of_lookup_2 in He. specialize (H e _ _ He Hu). lia.
Qed.

(** The same through a body: a create that names a negative counter under
    [usage] stores it. *)
Lemma usage_negative_by_body :
  exists e,
    (run [(alice, OpCreate bodyNegativeUsage)] []).1 !! 0%nat = Some e
    /\ usage e !! "submissions"%string = Some (-1).
Proof. eexists. split; vm_compute; reflexivity. Qed.

(** C6, amended: starting from a store whose usage counters are all
    non-negative, they stay non-negative over any sequence of calls in
    which no [recordUsage] carries a negative amount and no create or
    update body carries a negative number under [usage]. *)
Theorem usage_nonneg_preserved (calls : list (Req * Op)) (s : Store) :
  usageNonneg s ->
  Forall givesNoNegativeUsage calls ->
  usageNonneg (run calls s).1.
Proof.
  intros Hs Hc. revert s Hs.
  induction Hc as [|[rq op] calls Hop _ IH]; intros s Hs; [done|].
  rewrite run_cons_store. apply IH. by apply exec_usageNonneg.
Qed.

Lemma usage_nonneg_preserved_witness :
  usageNonneg
    (run [(alice, OpCreate bodyT1);
          (alice, OpRecordUsage 0 "submissions" (Some 5))] []).1.
Proof.
  apply usage_nonneg_preserved.
  - intros e r v He. by apply elem_of_nil in He.
  - repeat constructor; simpl; done.
Defined.

(** ** Tenant uniqueness *)

Lemma sameTenant_true (t : string) (ty : TenantType) (d : Entitlement) :
  sameTenant t ty d = true <-> tenantId d = t /\ tenantType d = ty.
Proof.
  unfold sameTenant. by rewrite andb_true_iff, !bool_decide_eq_true.
Qed.







Lemma createEntitlement_twice :
  map ev_failure
    (run [(alice, OpCreate bodyT1); (alice, OpCreate bodyT1)] []).2
  = [None; Some DuplicateTenant]
  /\ length (run [(alice, OpCreate bodyT1); (alice, OpCreate bodyT1)] []).1
     = 1%nat.
Proof. vm_compute. done. Qed.

(** * Further properties of the model and of the routes *)

(** ** Permission check, answer by answer *)

Lemma isFeatureEnabled_isModuleEnabled (e : Entitlement)
    (moduleName featureName : string) :
  isFeatureEnabled e moduleName featureName = true ->
  isModuleEnabled e moduleName = true.
Proof.
  unfold isFeatureEnabled, isModuleEnabled.
  destruct (findModule e moduleName) as [m|]; [|discriminate].
  by destruct (module_enabled m).
Qed.

(** X1: when the request names a feature, [hasPermission] is the feature
    flag alone: an enabled feature is only ever reported in an enabled
    module, so the conjunction with [isModuleEnabled] changes nothing. *)
Theorem checkPermission_named_feature (t : string) (ty : TenantType)
    (module feature : string) (s : Store) (e : Entitlement) :
  (getByTenant t ty s).2 = inr (Some e) ->
  feature <> ""%string ->
  (checkPermission t ty module (Some feature) s).2
  = inr (Permission (isFeatureEnabled e module feature)
           (isModuleEnabled e module) (isFeatureEnabled e module feature)
           (quotas e) (usage e)).
Proof.
  intros Hget Hf. unfold checkPermission, hbind, hret.
  destruct (getByTenant t ty s) as [s' [f|o]] eqn:Hg; simpl in Hget;
    [discriminate|]. injection Hget as ->. simpl.
  rewrite bool_decide_eq_false_2 by done. do 2 f_equal.
  destruct (isFeatureEnabled e module feature) eqn:Hfe.
  - by rewrite (isFeatureEnabled_isModuleEnabled _ _ _ Hfe).
  - apply andb_false_r.
Qed.

Lemma checkPermission_named_feature_witness :
  let e := set_modules
             [mkModule "forms" true [mkFeature "templates" false ∅ ∅] ∅ ∅]
             (entQU 10 0) in
  (checkPermission "t1" business "forms" (Some "templates"%string) [e]).2
  = inr (Permission (isFeatureEnabled e "forms" "templates")
           (isModuleEnabled e "forms") (isFeatureEnabled e "forms" "templates")
           (quotas e) (usage e)).
Proof.
  intros e.
  apply (checkPermission_named_feature "t1" business "forms" "templates" [e] e).
  - reflexivity.
  - discriminate.
Defined.

(** X2: a request without a feature, or with the empty string as feature,
    is decided by the module flag alone, and [isFeatureEnabled] is answered
    as true. *)
Theorem checkPermission_no_feature (t : string) (ty : TenantType)
    (module : string) (feature : option string) (s : Store) (e : Entitlement) :
  (getByTenant t ty s).2 = inr (Some e) ->
  feature = None \/ feature = Some ""%string ->
  (checkPermission t ty module feature s).2
  = inr (Permission (isModuleEnabled e module) (isModuleEnabled e module) true
           (quotas e) (usage e)).
Proof.
  intros Hget Hf. unfold checkPermission, hbind, hret.
  destruct (getByTenant t ty s) as [s' [f|o]] eqn:Hg; simpl in Hget;
    [discriminate|]. injection Hget as ->. simpl.
  destruct Hf as [-> | ->]; simpl; by rewrite andb_true_r.
Qed.

Lemma checkPermission_no_feature_witness :
  let e := set_modules
             [mkModule "forms" true [mkFeature "templates" false ∅ ∅] ∅ ∅]
             (entQU 10 0) in
  (checkPermission "t1" business "forms" (Some ""%string) [e]).2
  = inr (Permission (isModuleEnabled e "forms") (isModuleEnabled e "forms")
           true (quotas e) (usage e)).
Proof.
  intros e.
  apply (checkPermission_no_feature "t1" business "forms" (Some ""%string)
           [e] e).
  - reflexivity.
  - by right.
Defined.

Lemma find_none_iff {A} (p : A -> bool) (l : list A) :
  find p l = None <-> forall x, x ∈ l -> p x = false.
Proof.
  split.
  - intros H x Hx. apply list_elem_of_In in Hx. by eapply find_none.
  - intros H. destruct (find p l) as [x|] eqn:Hf; [|done].
    apply find_some in Hf as [Hin Hp]. apply list_elem_of_In in Hin.
    rewrite (H x Hin) in Hp. discriminate.
Qed.


(** ** Create and read back *)

Lemma find_app_none {A} (p : A -> bool) (l1 l2 : list A) :
  find p l1 = None -> find p (l1 ++ l2) = find p l2.
Proof.
  induction l1 as [|x l1 IH]; simpl; [done|].
  destruct (p x); [discriminate | exact IH].
Qed.

(** X4: an entitlement that a create returns is the one stored under the
    returned id and, unless the body sets [isActive] to false, the one the
    tenant lookup finds for its pair. *)
Theorem create_then_read (rq : Req) (b : Body) (s s' : Store) (id : nat)
    (e : Entitlement) :
  createEntitlement rq b s = (s', inr (id, e)) ->
  (getEntitlement id s').2 = inr e
  /\ (b_isActive b <> Some false ->
      (getEntitlementByTenant (tenantId e) (tenantType e) s').2 = inr e).
Proof.
  unfold createEntitlement.
  destruct (newEntitlement b (userId rq)) as [f|e0] eqn:Hnew;
    [discriminate|].
  unfold hbind, insertNew, addAuditEntry, save, hret.
  destruct (existsb _ s) eqn:Hdup; [discriminate|]. simpl.
  intros [= <- <- <-].
  assert (forall x : Entitlement, <[length s := x]> (s ++ [set_updatedAt (now rq) e0])
                    = s ++ [x]) as Hins.
  { intros x. rewrite insert_app_r_alt by done.
    by rewrite Nat.sub_diag. }
  rewrite Hins. split.
  - unfold getEntitlement, hbind, findById, hret. simpl.
    by rewrite lookup_app_r, Nat.sub_diag by done.
  - intros Hact. unfold getEntitlementByTenant, hbind, getByTenant, hret.
    simpl. rewrite find_app_none.
    + simpl. unfold sameTenant. rewrite !bool_decide_eq_true_2 by done.
      simpl.
      assert (isActive e0 = true) as ->; [|done].
      unfold newEntitlement in Hnew.
      destruct (b_tenantId b), (b_tenantType b), (b_planId b);
        try discriminate.
      destruct (_ && _); [|discriminate]. injection Hnew as <-. simpl.
      by destruct (b_isActive b) as [[]|].
    + apply find_none_iff. intros x Hx. simpl.
      assert (sameTenant (tenantId e0) (tenantType e0) x = false) as ->;
        [|done].
      destruct (sameTenant _ _ x) eqn:Hst; [|done].
      assert (existsb (sameTenant (tenantId e0) (tenantType e0)) s = true);
        [|congruence].
      apply existsb_exists. exists x. by rewrite <- list_elem_of_In.
Qed.

Lemma create_then_read_witness :
  exists e,
    (getEntitlement 0 (createEntitlement alice bodyT1 []).1).2 = inr e
    /\ (b_isActive bodyT1 <> Some false ->
        (getEntitlementByTenant (tenantId e) (tenantType e)
           (createEntitlement alice bodyT1 []).1).2 = inr e).
Proof.
  eexists.
  apply (create_then_read alice bodyT1 [] _ 0 _). reflexivity.
Defined.

(** ** What every call keeps *)

Ltac unfold_handlers :=
  unfold createEntitlement, updateEntitlement, setModule, setFeature,
    setQuotas, recordUsage, checkPermission, hbind, findById,
    findByIdAndUpdate, getByTenant, insertNew, addAuditEntry, incrementUsage,
    save, hfail, hret.

Ltac unfold_handlers_in H :=
  unfold createEntitlement, updateEntitlement, setModule, setFeature,
    setQuotas, recordUsage, checkPermission, hbind, findById,
    findByIdAndUpdate, getByTenant, insertNew, addAuditEntry, incrementUsage,
    save, hfail, hret in H.





(** X7: the pre-save hook and the update stamp: whatever document a call
    stores or changes carries the clock reading of that call in
    [updatedAt]. *)
Theorem changed_document_is_stamped (rq : Req) (op : Op) (s : Store)
    (id : nat) (e' : Entitlement) :
  (exec rq op s).1 !! id = Some e' ->
  s !! id <> Some e' ->
  updatedAt e' = now rq.
Proof.
  intros Hafter Hbefore.
  assert (forall (j : nat) (x : Entitlement),
            <[j := x]> s !! id = Some e' -> x = e' \/ s !! id = Some e')
    as Hins.
  { intros j x H. apply list_lookup_insert_Some in H as [(_ & -> & _) | [_ H]];
      [by left | by right]. }
  destruct op as [b|i b|i mn p|i mn fn p|i p|i res a|t ty m ft];
    simpl in *; unfold_handlers_in Hafter; simpl in *.
  - destruct (newEntitlement b (userId rq)) as [f|e0]; simpl in *; [done|].
    destruct (existsb _ s); simpl in *; [done|].
    rewrite insert_app_r_alt, Nat.sub_diag in Hafter by done. simpl in *.
    apply lookup_app_Some in Hafter as [H | [_ H]]; [done|].
    apply list_lookup_singleton_Some in H as [_ <-]. done.
  - destruct (validateBody b); simpl in *; [|done].
    destruct (s !! i) eqn:Hi; simpl in *; [|done].
    destruct (existsb _ (delete i s)); simpl in *; [done|].
    rewrite list_insert_insert_eq in Hafter.
    by destruct (Hins _ _ Hafter) as [<- | ?].
  - destruct (s !! i) as [e|] eqn:Hi; simpl in *; [|done].
    destruct (list_find _ (modules e)) as [[k m]|]; simpl in *; [|done].
    destruct (forallb _ _); simpl in *; [|done].
    rewrite list_insert_insert_eq in Hafter.
    by destruct (Hins _ _ Hafter) as [<- | ?].
  - destruct (s !! i) as [e|] eqn:Hi; simpl in *; [|done].
    destruct (list_find _ (modules e)) as [[k m]|]; simpl in *; [|done].
    destruct (list_find _ (module_features m)) as [[k' ft]|]; simpl in *;
      [|done].
    rewrite list_insert_insert_eq in Hafter.
    by destruct (Hins _ _ Hafter) as [<- | ?].
  - destruct (s !! i) as [e|] eqn:Hi; simpl in *; [|done].
    rewrite list_insert_insert_eq in Hafter.
    by destruct (Hins _ _ Hafter) as [<- | ?].
  - destruct (s !! i) as [e|] eqn:Hi; simpl in *; [|done].
    destruct (checkQuota e res); simpl in *;
      by destruct (Hins _ _ Hafter) as [<- | ?].
  - by destruct (find _ s).
Qed.

Lemma changed_document_is_stamped_witness :
  exists e',
    (exec alice (OpRecordUsage 0 "submissions" None) [entQU 10 9]).1 !! 0%nat
    = Some e'
    /\ updatedAt e' = now alice.
Proof.
  eexists. split; [reflexivity|].
  apply (changed_document_is_stamped alice
           (OpRecordUsage 0 "submissions" None) [entQU 10 9] 0).
  - reflexivity.
  - vm_compute. intros [=].
Defined.

(** ** Module, feature and quota updates read back *)

Section FirstMatch.
Context {A : Type} (key : A -> string).


Lemma list_find_none_of_find (k : string) (l : list A) :
  find (fun y => bool_decide (key y = k)) l = None ->
  list_find (fun y => key y = k) l = None.
Proof.
  induction l as [|y l IH]; simpl; [done|].
  case_bool_decide as Hk; [discriminate|].
  intros H. by rewrite decide_False, (IH H).
Qed.

Lemma list_find_lookup (k : string) (l : list A) (i : nat) (x : A) :
  list_find (fun y => key y = k) l = Some (i, x) -> l !! i = Some x /\ key x = k.
Proof. intros H. apply list_find_Some in H as (? & ? & _). done. Qed.



Lemma fmap_key_insert (l : list A) (i : nat) (x x' : A) :
  l !! i = Some x -> key x' = key x -> key <$> <[i := x']> l = key <$> l.
Proof.
  intros Hi Hx. rewrite list_fmap_insert, Hx.
  apply list_insert_id. by rewrite list_lookup_fmap, Hi.
Qed.
End FirstMatch.



(** X9: neither the module route nor the feature route adds, removes,
    renames or reorders a module of any stored entitlement, whatever the
    outcome of the call. *)
Theorem module_names_kept (rq : Req) (op : Op) (s : Store) (j : nat) :
  (exists id mn p, op = OpSetModule id mn p)
  \/ (exists id mn fn p, op = OpSetFeature id mn fn p) ->
  (fun d => module_name <$> modules d) <$> (exec rq op s).1 !! j
  = (fun d => module_name <$> modules d) <$> s !! j.
Proof.
  assert (forall (id : nat) (e x : Entitlement),
            s !! id = Some e ->
            module_name <$> modules x = module_name <$> modules e ->
            (fun d => module_name <$> modules d) <$> <[id := x]> s !! j
            = (fun d => module_name <$> modules d) <$> s !! j) as Hins.
  { intros id e x Hid Hx. destruct (decide (id = j)) as [-> | Hne].
    - rewrite list_lookup_insert_eq by by eapply lookup_lt_Some.
      rewrite Hid. simpl. by rewrite Hx.
    - by rewrite list_lookup_insert_ne. }
  intros [(id & mn & p & ->) | (id & mn & fn & p & ->)]; simpl;
    unfold_handlers; simpl.
  - destruct (s !! id) as [e|] eqn:Hid; simpl; [|done].
    destruct (list_find _ (modules e)) as [[i m]|] eqn:Hi; simpl; [|done].
    destruct (forallb _ _); simpl; [|done].
    rewrite list_insert_insert_eq. apply (Hins id e); [done|]. simpl.
    destruct (list_find_lookup module_name _ _ _ _ Hi) as [Hl _].
    by apply (fmap_key_insert module_name _ _ m).
  - destruct (s !! id) as [e|] eqn:Hid; simpl; [|done].
    destruct (list_find _ (modules e)) as [[i m]|] eqn:Hi; simpl; [|done].
    destruct (list_find _ (module_features m)) as [[k ft]|]; simpl; [|done].
    rewrite list_insert_insert_eq. apply (Hins id e); [done|]. simpl.
    destruct (list_find_lookup module_name _ _ _ _ Hi) as [Hl _].
    by apply (fmap_key_insert module_name _ _ m).
Qed.

Lemma module_names_kept_witness :
  let e := set_modules
             [mkModule "forms" false [mkFeature "templates" true ∅ ∅] ∅ ∅]
             (entQU 10 0) in
  let op := OpSetModule 0 "forms"
              (mkModulePatch (Some true) (Some []) None None) in
  (fun d => module_name <$> modules d) <$> (exec alice op [e]).1 !! 0%nat
  = Some ["forms"%string].
Proof.
  intros e op.
  rewrite (module_names_kept alice op [e] 0); [reflexivity|].
  left. by eexists _, _, _.
Defined.





(** ** Usage: what a granted request touches, and unit amounts *)







(** ** Reports *)

(** X14: the expiring report only grows with the number of days, and it is
    empty when the number of days is zero or negative (the clock not
    running backwards between the two readings of the method). *)
Theorem getExpiringSoon_days (now1 now2 days days' : Z) (s : Store) :
  (days <= days' ->
   forall e, e ∈ getExpiringSoon now1 now2 days s ->
             e ∈ getExpiringSoon now1 now2 days' s)
  /\ (now1 <= now2 -> days <= 0 -> getExpiringSoon now1 now2 days s = []).
Proof.
  split.
  - intros Hd e. rewrite !getExpiringSoon_elem.
    intros (Hin & Ha & t & Ht & H1 & H2). split; [done|]. split; [done|].
    exists t. split; [done|]. unfold msPerDay in *. lia.
  - intros Hn Hd. apply elem_of_nil_inv. intros e.
    rewrite getExpiringSoon_elem. intros (_ & _ & t & _ & H1 & H2).
    unfold msPerDay in *. lia.
Qed.

Lemma getExpiringSoon_days_witness :
  let e := entUntil "t1" (Some (1000 + 3 * msPerDay)) in
  (e ∈ getExpiringSoon 1000 1000 7 [e] -> e ∈ getExpiringSoon 1000 1000 30 [e])
  /\ getExpiringSoon 1000 1000 0 [e] = [].
Proof.
  intros e. split.
  - apply (proj1 (getExpiringSoon_days 1000 1000 7 30 [e])). done.
  - apply (proj2 (getExpiringSoon_days 1000 1000 0 0 [e])); done.
Defined.

(** X15: the plan report holds exactly the stored entitlements that are
    active and of that plan; in particular it holds the entitlement that the
    tenant lookup finds, under its plan. *)
Theorem getByPlan_spec (plan : string) (s : Store) :
  (forall e, e ∈ getByPlan plan s <->
             e ∈ s /\ planId e = plan /\ isActive e = true)
  /\ (forall t ty e,
        (getByTenant t ty s).2 = inr (Some e) -> e ∈ getByPlan (planId e) s).
Proof.
  assert (forall pl e, e ∈ getByPlan pl s <->
                       e ∈ s /\ planId e = pl /\ isActive e = true) as H.
  { intros pl e. unfold getByPlan.
    rewrite !list_elem_of_In, filter_In, andb_true_iff, bool_decide_eq_true.
    done. }
  split; [apply H|].
  intros t ty e. unfold getByTenant. simpl. intros [= Hf].
  apply find_some in Hf as [Hin Hp]. apply andb_true_iff in Hp as [_ Ha].
  apply H. by rewrite list_elem_of_In.
Qed.

(** ** Deactivation *)

(** X16: an update that sets [isActive] to false (and leaves the tenant key
    alone) keeps the document readable by id but hides it from the tenant
    lookup: the permission check then answers "no entitlement found" for
    every module and feature of that tenant. *)
Theorem deactivate_hides (rq : Req) (id : nat) (b : Body) (s : Store)
    (e : Entitlement) (module : string) (feature : option string) :
  uniqueTenants s ->
  s !! id = Some e ->
  validateBody b = true ->
  b_tenantId b = None -> b_tenantType b = None ->
  b_isActive b = Some false ->
  exists s' e',
    updateEntitlement rq id b s = (s', inr e')
    /\ (getEntitlement id s').2 = inr e'
    /\ isActive e' = false
    /\ (checkPermission (tenantId e) (tenantType e) module feature s').2
       = inr NoEntitlement.
Proof.
  intros Hu Hid Hv Ht Hty Ha.
  assert (id < length s)%nat as Hlen by by eapply lookup_lt_Some.
  assert (existsb (sameTenant (tenantId e) (tenantType e)) (delete id s)
          = false) as Hdup.
  { destruct (existsb _ _) eqn:Hex; [|done]. exfalso.
    apply existsb_exists in Hex as (x & Hx & Hsame).
    apply list_elem_of_In, list_elem_of_lookup_1 in Hx as [j Hj].
    apply sameTenant_true in Hsame as [H1 H2].
    rewrite list_lookup_delete in Hj. case_decide as Hlt.
    - assert (j = id) by (eapply Hu; eauto). lia.
    - assert (S j = id) by (eapply Hu; eauto). lia. }
  unfold updateEntitlement, hbind, findByIdAndUpdate, addAuditEntry, save,
    hfail.
  rewrite Hv, Hid. simpl. rewrite Ht, Hty. simpl. rewrite Hdup. simpl.
  rewrite list_insert_insert_eq.
  eexists _, _. split; [reflexivity|].
  split.
  { unfold getEntitlement, hbind, findById, hret. simpl.
    by rewrite list_lookup_insert_eq. }
  simpl. rewrite Ha. simpl. split; [done|].
  unfold checkPermission, hbind, getByTenant, hret. simpl.
  match goal with |- context [find ?p ?l] =>
    assert (find p l = None) as ->; [|done] end.
  apply find_none_iff. intros x Hx.
  apply list_elem_of_lookup_1 in Hx as [j Hj].
  apply list_lookup_insert_Some in Hj as [(_ & <- & _) | [Hne Hj]].
  - simpl. rewrite Ha. apply andb_false_r.
  - destruct (sameTenant _ _ x) eqn:Hsame; [|done]. exfalso.
    apply sameTenant_true in Hsame as [H1 H2]. apply Hne.
    eapply Hu; eauto.
Qed.

Lemma deactivate_hides_witness :
  exists s' e',
    updateEntitlement alice 0
      (mkBody None None None None None None (Some false) None None)
      [entQU 10 9] = (s', inr e')
    /\ (getEntitlement 0 s').2 = inr e'
    /\ isActive e' = false
    /\ (checkPermission (tenantId (entQU 10 9)) (tenantType (entQU 10 9))
          "forms" None s').2 = inr NoEntitlement.
Proof.
  apply (deactivate_hides alice 0 _ [entQU 10 9] (entQU 10 9) "forms" None);
    try reflexivity.
  intros i j d1 d2 Hi Hj _ _.
  apply lookup_lt_Some in Hi, Hj. simpl in *. lia.
Defined.

(** ** Token and role middleware *)

Lemma split_space_noSpace (w : string) :
  noSpace w = true -> split_space w = [w].
Proof.
  induction w as [|c w IH]; simpl; [done|].
  destruct (Ascii.eqb c Ascii.Space); simpl; [discriminate|].
  intros H. by rewrite (IH H).
Qed.

Lemma split_space_app (w rest : string) :
  noSpace w = true ->
  split_space (w +:+ String Ascii.Space rest) = w :: split_space rest.
Proof.
  induction w as [|c w IH]; simpl; [done|].
  destruct (Ascii.eqb c Ascii.Space); simpl; [discriminate|].
  intros H. by rewrite (IH H).
Qed.

(** X17: the token is the second space-separated part of the header: from
    "<scheme> <token>" it is the token, whatever the scheme is; a header
    without a space, like a missing header, has no token. *)
Theorem tokenOf_spec :
  (forall scheme token,
     noSpace scheme = true -> noSpace token = true -> token <> ""%string ->
     tokenOf (Some (scheme +:+ String Ascii.Space token)) = Some token)
  /\ (forall header, noSpace header = true -> tokenOf (Some header) = None)
  /\ tokenOf None = None.
Proof.
  split; [|split; [|done]].
  - intros scheme token Hs Ht Hne. unfold tokenOf.
    rewrite split_space_app, (split_space_noSpace token) by done. simpl.
    by rewrite bool_decide_eq_false_2.
  - intros header Hh. unfold tokenOf.
    by rewrite split_space_noSpace.
Qed.

Lemma tokenOf_spec_witness :
  tokenOf (Some "Bearer tok7"%string) = Some "tok7"%string
  /\ tokenOf (Some "Basic tok7"%string) = Some "tok7"%string
  /\ tokenOf (Some "tok7"%string) = None.
Proof.
  split; [|split].
  - apply (proj1 tokenOf_spec "Bearer" "tok7"); done.
  - apply (proj1 tokenOf_spec "Basic" "tok7"); done.
  - apply (proj1 (proj2 tokenOf_spec) "tok7"). done.
Defined.

(** X18: a request changes the store only if its token verifies, and a
    caller whose role is not [super_admin] changes it only through the
    usage route. *)
Theorem serve_store_changes (jwtVerify : string -> option User)
    (authorization : option string) (clock : Z) (op : Op) (s : Store) :
  (serve jwtVerify authorization clock op s).1 <> s ->
  exists u,
    verifyToken jwtVerify authorization = inr u
    /\ (user_role u = "super_admin"%string
        \/ exists id resource amount, op = OpRecordUsage id resource amount).
Proof.
  unfold serve.
  destruct (verifyToken jwtVerify authorization) as [d|u]; [done|].
  intros Hch. exists u. split; [done|].
  assert (needsSuperAdmin op = true -> user_role u = "super_admin"%string)
    as Hguard.
  { intros Hn. rewrite Hn in Hch. unfold requireSuperAdmin in Hch.
    case_bool_decide as Hrole; [done|].
    destruct (decide (user_role u = "super_admin"%string)) as [Heq | Hne];
      [exact Heq | by destruct Hrole]. }
  destruct op as [b|id b|id mn p|id mn fn p|id p|id res a|t ty m ft];
    try (left; by apply Hguard).
  - right. by eexists _, _, _.
  - exfalso. apply Hch. simpl.
    unfold checkPermission, hbind, getByTenant, hret. by destruct (find _ s).
Qed.

(** A staff user may not change quotas, yet the same token moves a usage
    counter. *)
Lemma serve_store_changes_witness :
  (serve verifyStaff (Some "Bearer tok7"%string) 5
     (OpSetQuotas 0 quotaPatch) [entQU 10 9])
  = ([entQU 10 9], inl SuperAdminRequired)
  /\ exists u,
       verifyToken verifyStaff (Some "Bearer tok7"%string) = inr u
       /\ (user_role u = "super_admin"%string
           \/ exists id resource amount,
                OpRecordUsage 0 "submissions" None
                = OpRecordUsage id resource amount).
Proof.
  split; [reflexivity|].
  apply (serve_store_changes verifyStaff (Some "Bearer tok7"%string) 5
           (OpRecordUsage 0 "submissions" None) [entQU 10 9]).
  vm_compute. intros [=].
Defined.

(** ** Order of the ledger *)

Lemma expectedEntry_performedAt (ev : Event) (a : AuditEntry) :
  expectedEntry ev = Some a ->
  performedAt a = now (ev_req ev) /\ performedBy a = userId (ev_req ev).
Proof.
  unfold expectedEntry.
  destruct (ev_op ev), (ev_failure ev) as [[]|]; try discriminate;
    by intros [= <-].
Qed.

Lemma auditTrail_lower_bound (x : Z) (id : nat) (calls : list (Req * Op))
    (s : Store) :
  Forall (Z.le x) ((fun c => now c.1) <$> calls) ->
  Forall (Z.le x) (performedAt <$> auditTrail id (run calls s).2).
Proof.
  revert s. induction calls as [|[rq op] calls IH]; intros s Hx; [constructor|].
  apply Forall_cons in Hx as [Hrq Hx].
  rewrite run_cons_events, auditTrail_cons, fmap_app.
  apply Forall_app. split; [|by apply IH].
  case_bool_decide; [|constructor]. simpl.
  destruct (expectedEntry _) as [a|] eqn:Ha; simpl; [|constructor].
  apply expectedEntry_performedAt in Ha as [-> _]. by repeat constructor.
Qed.

Lemma auditTrail_nondecreasing (id : nat) (calls : list (Req * Op)) (s : Store) :
  nondecreasing ((fun c => now c.1) <$> calls) ->
  nondecreasing (performedAt <$> auditTrail id (run calls s).2).
Proof.
  revert s. induction calls as [|[rq op] calls IH]; intros s; [done|].
  intros [Hle Hrest].
  rewrite run_cons_events, auditTrail_cons, fmap_app.
  case_bool_decide; [|by apply IH]. simpl.
  destruct (expectedEntry _) as [a|] eqn:Ha; simpl; [|by apply IH].
  apply expectedEntry_performedAt in Ha as [-> _]. simpl.
  split; [by apply auditTrail_lower_bound | by apply IH].
Qed.

(** X19: when the clock of the calls never goes back and no body names
    the [audit] path, the entries that a sequence of calls adds to the
    ledger of an entitlement come after the ones it had, in non-decreasing
    [performedAt] order. *)
Theorem audit_in_clock_order (calls : list (Req * Op)) (s : Store) (id : nat) :
  Forall leavesAuditPath calls ->
  nondecreasing ((fun c => now c.1) <$> calls) ->
  exists added,
    auditOf id (run calls s).1 = auditOf id s ++ added
    /\ nondecreasing (performedAt <$> added).
Proof.
  intros Hl Hclock. exists (auditTrail id (run calls s).2).
  split; [|by apply auditTrail_nondecreasing].
  clear Hclock. revert s.
  induction Hl as [|[rq op] calls Hop _ IH]; intros s.
  - simpl. by rewrite app_nil_r.
  - rewrite run_cons_store, run_cons_events, IH, auditTrail_cons.
    rewrite (exec_audit rq op s id Hop). by rewrite app_assoc.
Qed.

Lemma audit_in_clock_order_witness :
  exists added,
    auditOf 0 (run ledgerCalls []).1 = auditOf 0 [] ++ added
    /\ nondecreasing (performedAt <$> added).
Proof.
  apply (audit_in_clock_order ledgerCalls [] 0).
  - repeat constructor.
  - simpl. repeat split; repeat constructor; done.
Defined.
